(** * Print audit: POS sales against the printer log

    A shallow embedding of the reconciliation engine of [Appv3.py]
    (lines 69-149) and the properties its specification states.

    Modelling conventions.
    - Text is a [string]; character classes and case mapping are those of
      Python on code points below 128 (other characters have no case, are
      no digit and no white space).
    - A data frame is the list of its rows, in row order; a derived column
      is a function of the row.
    - Page counts and quantities are integers ([Z]); the doubling of a
      quantity wraps around as [int64] does; a float [NaN] is the [None] of
      [option Z].  A DR number is the [float] of a digit string,
      held here as the natural number ([N]) the digits denote; the two
      agree below 2^53.
    - Three library behaviours are parameters of the engine: pandas'
      reading of a text as a number, Python's printing of a number, and
      the row order chosen by [sort_values]. *)

From Stdlib Require Import String Ascii List ZArith NArith Bool Lia Permutation.
From Stdlib Require Import DecimalString Sorted.
Import ListNotations.

Local Open Scope string_scope.
Local Open Scope N_scope.

(** ** Text *)

Module Text.

(** [\d] on code points below 128. *)
Definition is_digit (c : ascii) : bool :=
  let n := N_of_ascii c in (48 <=? n) && (n <=? 57).

(** [\s], and the characters [str.strip()] removes: tab, line feed,
    vertical tab, form feed, carriage return, the four separators
    0x1c-0x1f and the space. *)
Definition is_space (c : ascii) : bool :=
  let n := N_of_ascii c in
  ((9 <=? n) && (n <=? 13)) || ((28 <=? n) && (n <=? 32)).

Definition lower_char (c : ascii) : ascii :=
  let n := N_of_ascii c in
  if (65 <=? n) && (n <=? 90) then ascii_of_N (n + 32) else c.

Definition upper_char (c : ascii) : ascii :=
  let n := N_of_ascii c in
  if (97 <=? n) && (n <=? 122) then ascii_of_N (n - 32) else c.

(** [str.upper()] *)
Fixpoint upper (s : string) : string :=
  match s with
  | EmptyString => EmptyString
  | String c t => String (upper_char c) (upper t)
  end.

Fixpoint lower (s : string) : string :=
  match s with
  | EmptyString => EmptyString
  | String c t => String (lower_char c) (lower t)
  end.

(** The literal [p] matches at the start of [s], letters compared without
    regard to case ([re.IGNORECASE]). *)
Fixpoint prefix_nocase (p s : string) : bool :=
  match p, s with
  | EmptyString, _ => true
  | String a p', String b s' =>
      Ascii.eqb (lower_char a) (lower_char b) && prefix_nocase p' s'
  | String _ _, EmptyString => false
  end.

(** [Series.str.contains(p, case=False)] for a literal pattern [p]: the
    pattern is searched at every position. *)
Fixpoint contains_nocase (p s : string) : bool :=
  prefix_nocase p s
  || match s with
     | EmptyString => false
     | String _ t => contains_nocase p t
     end.

(** [p in s] *)
Fixpoint str_in (p s : string) : bool :=
  String.prefix p s
  || match s with
     | EmptyString => false
     | String _ t => str_in p t
     end.

(** [s.replace(',', '')] *)
Fixpoint remove_commas (s : string) : string :=
  match s with
  | EmptyString => EmptyString
  | String c t =>
      if Ascii.eqb c "," then remove_commas t else String c (remove_commas t)
  end.

Fixpoint lstrip (s : string) : string :=
  match s with
  | EmptyString => EmptyString
  | String c t => if is_space c then lstrip t else s
  end.

Fixpoint rstrip (s : string) : string :=
  match s with
  | EmptyString => EmptyString
  | String c t =>
      match rstrip t with
      | EmptyString => if is_space c then EmptyString else String c EmptyString
      | t' => String c t'
      end
  end.

(** [s.strip()] *)
Definition strip (s : string) : string := rstrip (lstrip s).

Definition digit_value (c : ascii) : N := N_of_ascii c - 48.

(** The number a run of decimal digits denotes, read left to right from
    the accumulator [acc]. *)
Fixpoint digits_from (acc : N) (s : string) : N :=
  match s with
  | EmptyString => acc
  | String c t => digits_from (10 * acc + digit_value c) t
  end.

Definition digits_value (s : string) : N := digits_from 0 s.

(** The longest run of digits at the start of [s] (a greedy [\d*]) and
    what follows it. *)
Fixpoint span_digits (s : string) : string * string :=
  match s with
  | EmptyString => (EmptyString, EmptyString)
  | String c t =>
      if is_digit c
      then let (ds, rest) := span_digits t in (String c ds, rest)
      else (EmptyString, s)
  end.

(** The pattern [DR(\d+)] ([gap = false]) or [DR\s*(\d+)] ([gap = true])
    matched at the start of [s]; the result is the captured group read as
    a number. *)
Definition match_DR (gap : bool) (s : string) : option N :=
  match s with
  | String c1 (String c2 t) =>
      if Ascii.eqb c1 "D" && Ascii.eqb c2 "R"
      then match span_digits (if gap then lstrip t else t) with
           | (EmptyString, _) => None
           | (ds, _) => Some (digits_value ds)
           end
      else None
  | _ => None
  end.

(** [re.search]: the match at the leftmost position that has one. *)
Fixpoint re_search {A : Type} (m : string -> option A) (s : string)
  : option A :=
  match m s with
  | Some x => Some x
  | None =>
      match s with
      | EmptyString => None
      | String _ t => re_search m t
      end
  end.

(** [Series.str.extract(r'DR(\d+)').astype(float)] on one cell, and the
    same with [r'DR\s*(\d+)']; [None] is the [NaN] of a cell with no
    match. *)
Definition str_extract_DR (gap : bool) (s : string) : option N :=
  re_search (match_DR gap) s.

End Text.

Import Text.

(** ** Tables *)

(** A cell of a column that a loader may fill with numbers, with text or
    not at all. *)
Inductive cell : Type :=
| Num (z : Z)
| Txt (s : string)
| Missing.

(** A row of the POS table.  [Invoice_No] and [Sales_Qty] hold the [str()]
    form of their cells, the only form the engine reads; a missing
    [Item_Name] or [Customer_Name] is [None]. *)
Record pos_row : Type := {
  Invoice_No : string;
  Item_Name : option string;
  Sales_Qty : string;
  Customer_Name : option string
}.

(** A row of the printer log. *)
Record fuji_row : Type := {
  Job_Name : option string;
  Printed_Pages : cell;
  Owner : option string;
  Recorded_Date_Time : string
}.

(** A row of [pos_grouped]. *)
Record pos_group : Type := {
  pg_DR_Num : N;
  pg_Invoice_No : string;
  pg_Customer_Name : option string;
  pg_Expected_Pages : Z
}.

(** A row of [fuji_grouped]. *)
Record fuji_group : Type := {
  fg_DR_Num : N;
  fg_Printed_Pages : Z
}.

(** A row of [anonymous_summary]. *)
Record anon_row : Type := {
  an_Job_Name : string;
  an_Artist_Name : string;
  an_Printed_Pages : Z;
  an_Recorded_Date_Time : string
}.

(** The [_merge] column of [pd.merge(..., indicator=True)]. *)
Inductive indicator : Type := left_only | right_only | both.

(** A row of [merged]; the columns of the side that has no row for the
    key are [NaN]. *)
Record merged_row : Type := {
  m_DR_Num : N;
  m_Invoice_No : option string;
  m_Customer_Name : option string;
  m_Expected_Pages : option Z;
  m_Printed_Pages : option Z;
  m_merge : indicator
}.

(** A row of the [proof] table. *)
Record proof_row : Type := {
  pr_Recorded_Date_Time : string;
  pr_Job_Name : option string;
  pr_Printed_Pages : Z;
  pr_Owner : option string
}.

(** What tab 2 shows under the mismatch table: nothing, the select box
    alone, or the select box and the [proof] table. *)
Inductive proof_view : Type :=
| no_section
| no_table (selected_dr : N)
| table (selected_dr : N) (rows : list proof_row).

(** ** Generic table operations *)

Definition isnull {A : Type} (x : option A) : bool :=
  match x with Some _ => false | None => true end.

(** [str(x)] of a text cell: a missing value prints as [nan]. *)
Definition str_cell (c : option string) : string :=
  match c with Some s => s | None => "nan" end.

(** [Series.str.contains(p, case=False, na=False)] *)
Definition str_contains (p : string) (c : option string) : bool :=
  match c with Some s => contains_nocase p s | None => false end.

(** Truth value of a float: zero is false, every other value is true, and
    so is [NaN]. *)
Definition truthy (x : option Z) : bool :=
  match x with Some 0%Z => false | _ => true end.

(** The result of an [int64] operation whose exact value is [z]: numpy
    wraps around at 2^63. *)
Definition wrap_int64 (z : Z) : Z := ((z + 2 ^ 63) mod 2 ^ 64 - 2 ^ 63)%Z.

(** [x or y] *)
Definition py_or (x y : option Z) : option Z := if truthy x then x else y.

(** [Series.fillna(0)] on one cell. *)
Definition fillna0 (x : option Z) : Z :=
  match x with Some z => z | None => 0%Z end.

Section Sorting.
Context {A : Type}.
Variable leb : A -> A -> bool.

Fixpoint insert_by (x : A) (l : list A) : list A :=
  match l with
  | [] => [x]
  | y :: t => if leb x y then x :: y :: t else y :: insert_by x t
  end.

(** A stable sort: of two rows that compare equal, the one that comes
    first in [l] comes first in the result. *)
Definition sort_by (l : list A) : list A := fold_right insert_by [] l.
End Sorting.

Section GroupBy.
Context {R K A : Type}.
Variable eqb : K -> K -> bool.
Variable leb : K -> K -> bool.
(** The group key of a row; a row with a null key belongs to no group
    ([dropna=True], the default). *)
Variable key : R -> option K.
(** The aggregate of a group that has the one row [r]. *)
Variable init : K -> R -> A.
(** The aggregate of a group after one more row. *)
Variable step : A -> R -> A.

Fixpoint upsert (k : K) (r : R) (g : list (K * A)) : list (K * A) :=
  match g with
  | [] => [(k, init k r)]
  | (k', a) :: t =>
      if eqb k k' then (k', step a r) :: t else (k', a) :: upsert k r t
  end.

Definition add_row (g : list (K * A)) (r : R) : list (K * A) :=
  match key r with
  | Some k => upsert k r g
  | None => g
  end.

(** The groups in order of first appearance. *)
Definition collect (rows : list R) : list (K * A) :=
  fold_left add_row rows [].

(** [df.groupby(key).agg(...).reset_index()]: one row per key, rows in
    ascending key order ([sort=True], the default). *)
Definition groupby (rows : list R) : list A :=
  map snd (sort_by (fun x y => leb (fst x) (fst y)) (collect rows)).
End GroupBy.

(** Order of the pairs (job name, owner): by job name, then by owner. *)
Definition pair_leb (x y : string * string) : bool :=
  match String.compare (fst x) (fst y) with
  | Lt => true
  | Eq => String.leb (snd x) (snd y)
  | Gt => false
  end.

Definition pair_eqb (x y : string * string) : bool :=
  String.eqb (fst x) (fst y) && String.eqb (snd x) (snd y).

(** The larger of two texts in code point order. *)
Definition str_max (a b : string) : string :=
  if String.leb a b then b else a.

(** A Python [dict] with text keys, in insertion order. *)
Fixpoint dict_set (k : string) (v : N) (d : list (string * N))
  : list (string * N) :=
  match d with
  | [] => [(k, v)]
  | (k', v') :: t =>
      if String.eqb k k' then (k', v) :: t else (k', v') :: dict_set k v t
  end.

(** [dict(pairs)] *)
Definition dict (pairs : list (string * N)) : list (string * N) :=
  fold_left (fun d kv => dict_set (fst kv) (snd kv) d) pairs [].

(** [d[k]]; [None] stands for [KeyError]. *)
Fixpoint dict_get (k : string) (d : list (string * N)) : option N :=
  match d with
  | [] => None
  | (k', v) :: t => if String.eqb k k' then Some v else dict_get k t
  end.

(** ** The engine *)

Section Engine.

(** [pd.to_numeric(text, errors='coerce')]: the number (an [int64]) a
    text denotes, [NaN] when it denotes none. *)
Variable to_numeric : string -> option Z.

(** The text Python prints for a number inside an f-string. *)
Variable str_num : Z -> string.

(** [DataFrame.sort_values(by='Printed Pages', ascending=False)] on the
    anonymous summary, with the default sorting algorithm. *)
Variable sort_values : list anon_row -> list anon_row.

(** *** 1. POS prep *)

(** Column [DR_Num] of [pos_df] (line 72). *)
Definition pos_DR_Num (r : pos_row) : option N :=
  str_extract_DR false (Invoice_No r).

(** Lines 75-76. *)
Definition pos_print (pos_df : list pos_row) : list pos_row :=
  let pos_print :=
    filter (fun r => str_contains "DIGITAL PRINT" (Item_Name r)) pos_df in
  filter (fun r => negb (str_contains "PROOF" (Item_Name r)
                         || str_contains "STICKER" (Item_Name r)))
         pos_print.

(** Lines 78-81. *)
Definition calc_pages (row : pos_row) : option Z :=
  let qty_str := strip (remove_commas (Sales_Qty row)) in
  let qty := py_or (to_numeric qty_str) (Some 0%Z) in
  if str_in "2 SIDES" (upper (str_cell (Item_Name row)))
  then option_map (fun q => wrap_int64 (q * 2)) qty
  else qty.

(** Column [Expected_Pages] of [pos_print] (line 83). *)
Definition Expected_Pages (row : pos_row) : option Z := calc_pages row.

(** ['first'] keeps the first value that is not null. *)
Definition first_notnull {A : Type} (acc x : option A) : option A :=
  match acc with Some _ => acc | None => x end.

(** ['sum'] skips [NaN]. *)
Definition sum_skipna (acc : Z) (x : option Z) : Z := (acc + fillna0 x)%Z.

Definition pos_init (k : N) (r : pos_row) : pos_group :=
  {| pg_DR_Num := k;
     pg_Invoice_No := Invoice_No r;
     pg_Customer_Name := Customer_Name r;
     pg_Expected_Pages := sum_skipna 0 (Expected_Pages r) |}.

Definition pos_step (g : pos_group) (r : pos_row) : pos_group :=
  {| pg_DR_Num := pg_DR_Num g;
     pg_Invoice_No := pg_Invoice_No g;
     pg_Customer_Name := first_notnull (pg_Customer_Name g) (Customer_Name r);
     pg_Expected_Pages := sum_skipna (pg_Expected_Pages g) (Expected_Pages r) |}.

(** Lines 84-88. *)
Definition pos_grouped (pos_df : list pos_row) : list pos_group :=
  groupby N.eqb N.leb pos_DR_Num pos_init pos_step (pos_print pos_df).

(** *** 2. Fuji prep *)

Definition to_numeric_cell (c : cell) : option Z :=
  match c with
  | Num z => Some z
  | Txt s => to_numeric s
  | Missing => None
  end.

(** Column [Printed Pages] of [fuji_df] after line 91. *)
Definition fuji_Printed_Pages (r : fuji_row) : Z :=
  fillna0 (to_numeric_cell (Printed_Pages r)).

(** Column [DR_Num] of [fuji_df] (line 93). *)
Definition fuji_DR_Num (r : fuji_row) : option N :=
  str_extract_DR true (str_cell (Job_Name r)).

(** *** 3. Categorize Fuji prints *)

(** Line 97. *)
Definition anonymous_raw (fuji_df : list fuji_row) : list fuji_row :=
  filter (fun r => isnull (fuji_DR_Num r)) fuji_df.

Definition anon_key (r : fuji_row) : option (string * string) :=
  match Job_Name r, Owner r with
  | Some j, Some o => Some (j, o)
  | _, _ => None
  end.

Definition anon_init (k : string * string) (r : fuji_row) : anon_row :=
  {| an_Job_Name := fst k;
     an_Artist_Name := snd k;
     an_Printed_Pages := fuji_Printed_Pages r;
     an_Recorded_Date_Time := Recorded_Date_Time r |}.

Definition anon_step (a : anon_row) (r : fuji_row) : anon_row :=
  {| an_Job_Name := an_Job_Name a;
     an_Artist_Name := an_Artist_Name a;
     an_Printed_Pages := (an_Printed_Pages a + fuji_Printed_Pages r)%Z;
     an_Recorded_Date_Time :=
       str_max (an_Recorded_Date_Time a) (Recorded_Date_Time r) |}.

(** Lines 100-104, before the sort. *)
Definition anonymous_groups (fuji_df : list fuji_row) : list anon_row :=
  groupby pair_eqb pair_leb anon_key anon_init anon_step
          (anonymous_raw fuji_df).

(** Lines 100-105. *)
Definition anonymous_summary (fuji_df : list fuji_row) : list anon_row :=
  sort_values (anonymous_groups fuji_df).

(** Line 108. *)
Definition fuji_with_dr (fuji_df : list fuji_row) : list fuji_row :=
  filter (fun r => negb (isnull (fuji_DR_Num r))) fuji_df.

Definition fuji_init (k : N) (r : fuji_row) : fuji_group :=
  {| fg_DR_Num := k; fg_Printed_Pages := fuji_Printed_Pages r |}.

Definition fuji_step (g : fuji_group) (r : fuji_row) : fuji_group :=
  {| fg_DR_Num := fg_DR_Num g;
     fg_Printed_Pages := (fg_Printed_Pages g + fuji_Printed_Pages r)%Z |}.

(** Line 109. *)
Definition fuji_grouped (fuji_df : list fuji_row) : list fuji_group :=
  groupby N.eqb N.leb fuji_DR_Num fuji_init fuji_step
          (fuji_with_dr fuji_df).

(** *** 4. Reconciliation *)

Definition row_left (a : pos_group) : merged_row :=
  {| m_DR_Num := pg_DR_Num a;
     m_Invoice_No := Some (pg_Invoice_No a);
     m_Customer_Name := pg_Customer_Name a;
     m_Expected_Pages := Some (pg_Expected_Pages a);
     m_Printed_Pages := None;
     m_merge := left_only |}.

Definition row_both (a : pos_group) (b : fuji_group) : merged_row :=
  {| m_DR_Num := pg_DR_Num a;
     m_Invoice_No := Some (pg_Invoice_No a);
     m_Customer_Name := pg_Customer_Name a;
     m_Expected_Pages := Some (pg_Expected_Pages a);
     m_Printed_Pages := Some (fg_Printed_Pages b);
     m_merge := both |}.

Definition row_right (b : fuji_group) : merged_row :=
  {| m_DR_Num := fg_DR_Num b;
     m_Invoice_No := None;
     m_Customer_Name := None;
     m_Expected_Pages := None;
     m_Printed_Pages := Some (fg_Printed_Pages b);
     m_merge := right_only |}.

(** The rows a left row gives: one per right row with its key, or the
    left row alone. *)
Definition join_left (rs : list fuji_group) (a : pos_group)
  : list merged_row :=
  match filter (fun b => fg_DR_Num b =? pg_DR_Num a) rs with
  | [] => [row_left a]
  | bs => map (row_both a) bs
  end.

(** [pd.merge(l, r, on='DR_Num', how='outer', indicator=True)]: the
    joined rows, then the right rows no left row has the key of, in
    ascending key order. *)
Definition merge_outer (ls : list pos_group) (rs : list fuji_group)
  : list merged_row :=
  sort_by (fun x y => m_DR_Num x <=? m_DR_Num y)
    (flat_map (join_left rs) ls
     ++ map row_right
          (filter (fun b =>
                     negb (existsb (fun a => pg_DR_Num a =? fg_DR_Num b) ls))
                  rs)).

Definition indicator_eqb (x y : indicator) : bool :=
  match x, y with
  | left_only, left_only | right_only, right_only | both, both => true
  | _, _ => false
  end.

(** Line 112. *)
Definition merged (pos_df : list pos_row) (fuji_df : list fuji_row)
  : list merged_row :=
  merge_outer (pos_grouped pos_df) (fuji_grouped fuji_df).

(** Line 113. *)
Definition unprinted (pos_df : list pos_row) (fuji_df : list fuji_row)
  : list merged_row :=
  filter (fun r => indicator_eqb (m_merge r) left_only)
         (merged pos_df fuji_df).

(** Line 114. *)
Definition matched (pos_df : list pos_row) (fuji_df : list fuji_row)
  : list merged_row :=
  filter (fun r => indicator_eqb (m_merge r) both) (merged pos_df fuji_df).

(** Column [Diff] of [matched] (line 115); [NaN] when either operand
    is. *)
Definition Diff (r : merged_row) : option Z :=
  match m_Printed_Pages r, m_Expected_Pages r with
  | Some p, Some e => Some (p - e)%Z
  | _, _ => None
  end.

(** [Diff != 0]: true of [NaN]. *)
Definition Diff_ne0 (r : merged_row) : bool :=
  match Diff r with Some 0%Z => false | _ => true end.

(** Line 116. *)
Definition mismatches (pos_df : list pos_row) (fuji_df : list fuji_row)
  : list merged_row :=
  filter Diff_ne0 (matched pos_df fuji_df).

(** The two classes the code computes no table for: the rows of
    [matched] whose [Diff] is zero, and the rows of [merged] that only
    the printer log has. *)
Definition matched_exact (pos_df : list pos_row) (fuji_df : list fuji_row)
  : list merged_row :=
  filter (fun r => negb (Diff_ne0 r)) (matched pos_df fuji_df).

Definition printer_only (pos_df : list pos_row) (fuji_df : list fuji_row)
  : list merged_row :=
  filter (fun r => indicator_eqb (m_merge r) right_only)
         (merged pos_df fuji_df).

(** *** Proof section of tab 2 *)

(** [Diff.abs() > 10]: false of [NaN]. *)
Definition Diff_large (r : merged_row) : bool :=
  match Diff r with Some d => (10 <? Z.abs d)%Z | None => false end.

(** Line 136. *)
Definition large_mismatches (pos_df : list pos_row)
  (fuji_df : list fuji_row) : list merged_row :=
  filter Diff_large (mismatches pos_df fuji_df).

(** Line 141: one label per row. *)
Definition label (r : merged_row) : string :=
  (str_cell (m_Invoice_No r) ++ " - " ++ str_cell (m_Customer_Name r)
   ++ " (Diff: " ++ match Diff r with Some d => str_num d | None => "nan" end
   ++ ")")%string.

Definition labels (large : list merged_row) : list string := map label large.

(** Line 142. *)
Definition dr_map (large : list merged_row) : list (string * N) :=
  dict (combine (labels large) (map m_DR_Num large)).

(** Line 148. *)
Definition proof (fuji_df : list fuji_row) (selected_dr : N)
  : list proof_row :=
  map (fun r => {| pr_Recorded_Date_Time := Recorded_Date_Time r;
                   pr_Job_Name := Job_Name r;
                   pr_Printed_Pages := fuji_Printed_Pages r;
                   pr_Owner := Owner r |})
      (filter (fun r => match fuji_DR_Num r with
                        | Some d => d =? selected_dr
                        | None => false
                        end)
              (fuji_with_dr fuji_df)).

(** Lines 137-149.  [choice] is the position of the option the user
    picks in the select box; a select box returns one of its options. *)
Definition proof_section (pos_df : list pos_row) (fuji_df : list fuji_row)
  (choice : nat) : proof_view :=
  let large := large_mismatches pos_df fuji_df in
  match large with
  | [] => no_section
  | _ :: _ =>
      match nth_error (labels large) choice with
      | None => no_section
      | Some selected_label =>
          match dict_get selected_label (dr_map large) with
          | None => no_section
          | Some selected_dr =>
              if negb (selected_dr =? 0)
              then table selected_dr (proof fuji_df selected_dr)
              else no_table selected_dr
          end
      end
  end.

End Engine.

(** ** Instances of the library parameters *)

(** Reading of an integer literal: an optional sign and decimal digits.
    Every other text reads as [NaN]. *)
Definition to_numeric_int (s : string) : option Z :=
  let unsigned t :=
    match span_digits t with
    | (String c ds, EmptyString) => Some (Z.of_N (digits_value (String c ds)))
    | _ => None
    end in
  match s with
  | String "-" t => option_map Z.opp (unsigned t)
  | String "+" t => unsigned t
  | _ => unsigned s
  end.

(** Printing of an integer. *)
Definition str_int (z : Z) : string :=
  DecimalString.NilZero.string_of_int (Z.to_int z).

(** A stable descending sort on the summed pages. *)
Definition sort_values_stable (l : list anon_row) : list anon_row :=
  sort_by (fun x y => (an_Printed_Pages y <=? an_Printed_Pages x)%Z) l.

(** A descending sort that puts, of two rows with equal pages, the later
    one first. *)
Definition sort_values_reversing (l : list anon_row) : list anon_row :=
  sort_by (fun x y => (an_Printed_Pages y <=? an_Printed_Pages x)%Z) (rev l).

(** ** Loading an uploaded file (lines 26-49) *)

(** [s.split(sep)]: the pieces of [s] between the separators; there is
    always at least one piece. *)
Fixpoint split_on (sep : ascii) (s : string) : list string :=
  match s with
  | EmptyString => [EmptyString]
  | String c t =>
      if Ascii.eqb c sep
      then EmptyString :: split_on sep t
      else match split_on sep t with
           | w :: ws => String c w :: ws
           | [] => [String c EmptyString]
           end
  end.

(** Line 29: [name.split('.')[-1].lower()]. *)
Definition file_extension (name : string) : string :=
  lower (last (split_on "." name) EmptyString).

(** A cell of a table that [pdfplumber] extracts: a text or nothing. *)
Definition pdf_row : Type := list (option string).

(** Lines 37-41: the rows of the tables of the pages, in page order; a
    page on which [extract_table()] finds nothing ([None]) or an empty
    table adds no row. *)
Fixpoint pdf_all_data (pages : list (option (list pdf_row)))
  : list pdf_row :=
  match pages with
  | [] => []
  | None :: rest => pdf_all_data rest
  | Some [] :: rest => pdf_all_data rest
  | Some tbl :: rest => tbl ++ pdf_all_data rest
  end.

(** What [load_any_file] gives back and shows: a table; [None] without a
    word; [None] after the message that the PDF has no table; [None]
    after the message that reading failed. *)
Inductive load_result (frame : Type) : Type :=
| Loaded (df : frame)
| Nothing
| No_tables
| Read_error.

Arguments Loaded {frame} df.
Arguments Nothing {frame}.
Arguments No_tables {frame}.
Arguments Read_error {frame}.

Section Loader.

(** The content of an upload and a parsed table. *)
Variables content frame : Type.

(** [pd.read_csv] and [pd.read_excel]; [None] when they raise. *)
Variable read_csv : content -> option frame.
Variable read_excel : content -> option frame.

(** [pdfplumber.open] and [extract_table] on every page; [None] when one
    of them raises. *)
Variable pdf_tables : content -> option (list (option (list pdf_row))).

(** [pd.DataFrame(rows, columns=header)]; [None] when it raises. *)
Variable DataFrame : list pdf_row -> pdf_row -> option frame.

Definition or_read_error (x : option frame) : load_result frame :=
  match x with Some df => Loaded df | None => Read_error end.

(** Lines 26-49.  An upload is its name and its content. *)
Definition load_any_file (uploaded_file : option (string * content))
  : load_result frame :=
  match uploaded_file with
  | None => Nothing
  | Some (name, data) =>
      let file_extension := file_extension name in
      if String.eqb file_extension "csv" then or_read_error (read_csv data)
      else if String.eqb file_extension "xlsx"
              || String.eqb file_extension "xls"
      then or_read_error (read_excel data)
      else if String.eqb file_extension "pdf"
      then match pdf_tables data with
           | None => Read_error
           | Some pages =>
               match pdf_all_data pages with
               | [] => No_tables
               | header :: rows => or_read_error (DataFrame rows header)
               end
           end
      else Nothing
  end.

End Loader.

(** ** The dashboard (lines 119-123) *)

(** The four metrics: billed invoices, unprinted, quantity mismatches,
    anonymous unique jobs. *)
Definition metrics (to_numeric : string -> option Z)
  (sort_values : list anon_row -> list anon_row)
  (pos_df : list pos_row) (fuji_df : list fuji_row)
  : nat * nat * nat * nat :=
  (length (pos_grouped to_numeric pos_df),
   length (unprinted to_numeric pos_df fuji_df),
   length (mismatches to_numeric pos_df fuji_df),
   length (anonymous_summary to_numeric sort_values fuji_df)).

(** ** Vocabulary of the statements *)

Fixpoint forall_chars (p : ascii -> bool) (s : string) : bool :=
  match s with
  | EmptyString => true
  | String c t => p c && forall_chars p t
  end.

Definition starts_with (p : ascii -> bool) (s : string) : bool :=
  match s with
  | EmptyString => false
  | String c _ => p c
  end.

(** [s] has the marker at the end of [pre]: the letters DR, the white
    space [ws] (none unless [gap]), the digits [ds], all of them, and then
    [rest]. *)
Definition DR_at (gap : bool) (s pre ws ds rest : string) : Prop :=
  s = (pre ++ "DR" ++ ws ++ ds ++ rest)%string
  /\ forall_chars is_space ws = true
  /\ (gap = false -> ws = EmptyString)
  /\ ds <> EmptyString
  /\ forall_chars is_digit ds = true
  /\ starts_with is_digit rest = false.

(** Somewhere in [s] the pattern matches. *)
Definition has_DR (gap : bool) (s : string) : Prop :=
  exists pre ws ds rest, DR_at gap s pre ws ds rest.

(** The aggregate stored for the key [k]. *)
Fixpoint assoc {K A : Type} (eqb : K -> K -> bool) (k : K)
  (g : list (K * A)) : option A :=
  match g with
  | [] => None
  | (k', a) :: t => if eqb k k' then Some a else assoc eqb k t
  end.

(** The rows whose group key is [k], in row order. *)
Definition rows_of {R K : Type} (eqb : K -> K -> bool) (key : R -> option K)
  (k : K) (rows : list R) : list R :=
  filter (fun r => match key r with Some k' => eqb k' k | None => false end)
         rows.

Definition sum_Z (l : list Z) : Z := fold_right Z.add 0%Z l.

(** [s] contains [p], letters compared without regard to case. *)
Definition occurs_nocase (p s : string) : Prop :=
  exists pre mid post,
    s = (pre ++ mid ++ post)%string /\ lower mid = lower p.

(** The POS rows the aggregation is meant to see: a digital print that is
    neither a proof nor a sticker. *)
Definition retained (r : pos_row) : Prop :=
  exists item,
    Item_Name r = Some item
    /\ occurs_nocase "digital print" item
    /\ ~ occurs_nocase "proof" item
    /\ ~ occurs_nocase "sticker" item.

(** The rows that have a DR number. *)
Definition with_DR_Num (pos_df : list pos_row) : list pos_row :=
  filter (fun r => negb (isnull (pos_DR_Num r))) pos_df.

(** The two tests of lines 75-76 as one. *)
Definition keep (r : pos_row) : bool :=
  str_contains "DIGITAL PRINT" (Item_Name r)
  && negb (str_contains "PROOF" (Item_Name r)
           || str_contains "STICKER" (Item_Name r)).

(** The aggregate of the rows [rs], added one by one to a group that may
    not exist yet. *)
Definition agg_from {R K A : Type} (init : K -> R -> A) (step : A -> R -> A)
  (k : K) (o : option A) (rs : list R) : option A :=
  fold_left
    (fun o r => Some (match o with Some a => step a r | None => init k r end))
    rs o.

(** The DR numbers of the two normalized inputs, one entry per row that
    has one: the retained POS rows, then the printer rows. *)
Definition identifiers (pos_df : list pos_row) (fuji_df : list fuji_row)
  : list N :=
  flat_map (fun r => match pos_DR_Num r with Some k => [k] | None => [] end)
           (pos_print pos_df)
  ++ flat_map (fun r => match fuji_DR_Num r with Some k => [k] | None => [] end)
              fuji_df.

Definition has_key (k : N) (m : merged_row) : bool := m_DR_Num m =? k.

(** The test of line 136 with a threshold [t] in place of 10. *)
Definition Diff_exceeds (t : Z) (r : merged_row) : bool :=
  match Diff r with Some d => (t <? Z.abs d)%Z | None => false end.

(** The (job name, owner) pair of a row of the anonymous summary. *)
Definition anon_pair (a : anon_row) : string * string :=
  (an_Job_Name a, an_Artist_Name a).

(** Descending by summed pages. *)
Definition descending (l : list anon_row) : Prop :=
  StronglySorted
    (fun a b => (an_Printed_Pages b <= an_Printed_Pages a)%Z) l.

(** What [sort_values(by='Printed Pages', ascending=False)] promises with
    the default algorithm: the same rows, in descending order.  The
    default algorithm is not a stable one, so nothing is promised on the
    order of rows with equal pages. *)
Definition sorts_descending (sort : list anon_row -> list anon_row) : Prop :=
  forall l, Permutation (sort l) l /\ descending (sort l).

(** The position of the first entry [Some k] of [keys]; the length of
    [keys] when there is none. *)
Fixpoint key_pos (k : string * string) (keys : list (option (string * string)))
  : nat :=
  match keys with
  | [] => 0%nat
  | Some k' :: t => if pair_eqb k k' then 0%nat else S (key_pos k t)
  | None :: t => S (key_pos k t)
  end.

(** Rows of [l] with equal pages stand in the order in which their pairs
    first occur in [keys]. *)
Definition ties_keep (keys : list (option (string * string)))
  (l : list anon_row) : Prop :=
  forall i j a b,
    (i < j)%nat ->
    nth_error l i = Some a -> nth_error l j = Some b ->
    an_Printed_Pages a = an_Printed_Pages b ->
    (key_pos (anon_pair a) keys < key_pos (anon_pair b) keys)%nat.

(** The first value of the list that is not null. *)
Fixpoint first_some {A : Type} (l : list (option A)) : option A :=
  match l with
  | [] => None
  | Some x :: _ => Some x
  | None :: t => first_some t
  end.

Definition not_dot (c : ascii) : bool := negb (Ascii.eqb c ".").

Definition not_space (c : ascii) : bool := negb (is_space c).

Definition is_zero (c : ascii) : bool := Ascii.eqb c "0".

(** The page gives rows to [pdf_all_data]. *)
Definition has_table (page : option (list pdf_row)) : bool :=
  match page with
  | Some (_ :: _) => true
  | _ => false
  end.

(** The rows that a [groupby] on [key] sees. *)
Definition keyed {R K : Type} (key : R -> option K) (rows : list R) : list R :=
  filter (fun r => negb (isnull (key r))) rows.

(** The printer rows that reach neither the DR groups nor the anonymous
    summary: no DR number, and no job name or no owner. *)
Definition lost_rows (fuji_df : list fuji_row) : list fuji_row :=
  filter (fun r => isnull (anon_key r)) (anonymous_raw fuji_df).

(** The columns of a row of [merged] that the reconciliation computes. *)
Definition row_numbers (m : merged_row)
  : N * option Z * option Z * indicator :=
  (m_DR_Num m, m_Expected_Pages m, m_Printed_Pages m, m_merge m).

(** The same columns for the DR number [k], read off the two inputs. *)
Definition numbers_of (to_numeric : string -> option Z)
  (pos_df : list pos_row) (fuji_df : list fuji_row) (k : N)
  : N * option Z * option Z * indicator :=
  let ps := rows_of N.eqb pos_DR_Num k (pos_print pos_df) in
  let fs := rows_of N.eqb fuji_DR_Num k fuji_df in
  (k,
   match ps with
   | [] => None
   | _ => Some (sum_Z (map (fun r => fillna0 (calc_pages to_numeric r)) ps))
   end,
   match fs with
   | [] => None
   | _ => Some (sum_Z (map (fuji_Printed_Pages to_numeric) fs))
   end,
   match ps, fs with
   | [], _ => right_only
   | _, [] => left_only
   | _, _ => both
   end).





(** The columns of a printer row that the proof table shows. *)
Definition as_proof_row (to_numeric : string -> option Z) (r : fuji_row)
  : proof_row :=
  {| pr_Recorded_Date_Time := Recorded_Date_Time r;
     pr_Job_Name := Job_Name r;
     pr_Printed_Pages := fuji_Printed_Pages to_numeric r;
     pr_Owner := Owner r |}.

(** * Properties *)

(** ** Text *)

Section TextFacts.

Lemma append_nil_r (s : string) : (s ++ "")%string = s.
Proof. induction s as [|c s IH]; simpl; [reflexivity | now rewrite IH]. Qed.

Lemma append_assoc (a b c : string) :
  ((a ++ b) ++ c = a ++ b ++ c)%string.
Proof. induction a as [|x a IH]; simpl; [reflexivity | now rewrite IH]. Qed.

Lemma forall_chars_app (p : ascii -> bool) (a b : string) :
  forall_chars p (a ++ b) = forall_chars p a && forall_chars p b.
Proof.
  induction a as [|x a IH]; simpl; [reflexivity|].
  now rewrite IH, andb_assoc.
Qed.

(** Two ways of cutting one text: one of the two left parts is the start
    of the other. *)
Lemma append_eq_append (u v p x : string) :
  (u ++ v = p ++ x)%string ->
  (exists w, p = u ++ w /\ v = w ++ x)%string
  \/ (exists c w, u = p ++ String c w /\ x = String c w ++ v)%string.
Proof.
  revert p; induction u as [|a u IH]; intros p H; simpl in H.
  - left. exists p. now split.
  - destruct p as [|b p]; simpl in H.
    + right. exists a, u. now split.
    + injection H as -> H. destruct (IH _ H) as [(w & -> & ->)|(c & w & -> & ->)].
      * left. now exists w.
      * right. now exists c, w.
Qed.

Lemma span_digits_spec (s : string) :
  let (ds, rest) := span_digits s in
  s = (ds ++ rest)%string
  /\ forall_chars is_digit ds = true
  /\ starts_with is_digit rest = false.
Proof.
  induction s as [|c s IH]; simpl.
  - repeat split.
  - destruct (is_digit c) eqn:Hc.
    + destruct (span_digits s) as [ds rest]. destruct IH as (-> & Hd & Hr).
      simpl. rewrite Hc, Hd. now repeat split.
    + simpl. now repeat split.
Qed.

Lemma span_digits_app (ds rest : string) :
  forall_chars is_digit ds = true ->
  starts_with is_digit rest = false ->
  span_digits (ds ++ rest) = (ds, rest).
Proof.
  induction ds as [|c ds IH]; simpl; intros Hd Hr.
  - destruct rest as [|r rest]; [reflexivity|]. simpl in *. now rewrite Hr.
  - apply andb_true_iff in Hd as [Hc Hd]. now rewrite Hc, IH.
Qed.

Lemma lstrip_spec (s : string) :
  exists ws, s = (ws ++ lstrip s)%string
             /\ forall_chars is_space ws = true
             /\ starts_with is_space (lstrip s) = false.
Proof.
  induction s as [|c s (ws & E & Hw & Hs)]; simpl.
  - now exists EmptyString.
  - destruct (is_space c) eqn:Hc.
    + exists (String c ws). simpl. rewrite Hc, Hw, <- E. now repeat split.
    + exists EmptyString. simpl. now repeat split.
Qed.

Lemma lstrip_app (ws t : string) :
  forall_chars is_space ws = true ->
  starts_with is_space t = false ->
  lstrip (ws ++ t) = t.
Proof.
  induction ws as [|c ws IH]; simpl; intros Hw Ht.
  - destruct t as [|x t]; [reflexivity|]. simpl in *. now rewrite Ht.
  - apply andb_true_iff in Hw as [Hc Hw]. now rewrite Hc, IH.
Qed.

Lemma digit_not_space (c : ascii) : is_digit c = true -> is_space c = false.
Proof.
  unfold is_digit, is_space. intros H.
  apply andb_true_iff in H as [H1 H2].
  apply N.leb_le in H1, H2.
  apply orb_false_iff; split; apply andb_false_iff.
  - right. apply N.leb_gt. lia.
  - right. apply N.leb_gt. lia.
Qed.

Lemma starts_digit_not_space (s : string) :
  starts_with is_digit s = true -> starts_with is_space s = false.
Proof. destruct s; simpl; [discriminate | apply digit_not_space]. Qed.

End TextFacts.

(** ** The identifier extractor *)

Section ExtractorFacts.

Variable gap : bool.

(** A match at the start of the text is the marker at the start. *)
Lemma match_DR_Some (s : string) (n : N) :
  match_DR gap s = Some n ->
  exists ws ds rest,
    DR_at gap s EmptyString ws ds rest /\ n = digits_value ds.
Proof.
  unfold match_DR. destruct s as [|c1 [|c2 t]]; try discriminate.
  destruct (Ascii.eqb c1 "D") eqn:E1; [|discriminate].
  destruct (Ascii.eqb c2 "R") eqn:E2; [|discriminate].
  apply Ascii.eqb_eq in E1, E2. subst c1 c2. simpl.
  destruct gap.
  - destruct (lstrip_spec t) as (ws & Et & Hw & _).
    pose proof (span_digits_spec (lstrip t)) as Hsp.
    destruct (span_digits (lstrip t)) as [ds rest].
    destruct Hsp as (El & Hd & Hr).
    destruct ds as [|d ds]; [discriminate|]. intros [= <-].
    exists ws, (String d ds), rest. split; [|reflexivity].
    unfold DR_at. repeat split; try assumption; try discriminate.
    simpl. rewrite Et at 1. now rewrite El.
  - pose proof (span_digits_spec t) as Hsp.
    destruct (span_digits t) as [ds rest]. destruct Hsp as (El & Hd & Hr).
    destruct ds as [|d ds]; [discriminate|]. intros [= <-].
    exists EmptyString, (String d ds), rest. split; [|reflexivity].
    unfold DR_at. repeat split; try assumption; try discriminate.
    simpl. now rewrite El.
Qed.

Lemma match_DR_at (s ws ds rest : string) :
  DR_at gap s EmptyString ws ds rest ->
  match_DR gap s = Some (digits_value ds).
Proof.
  intros (-> & Hw & Hg & Hne & Hd & Hr). simpl.
  assert (Hsd : starts_with is_digit (ds ++ rest) = true).
  { destruct ds as [|d ds]; [congruence|]. simpl in *.
    now apply andb_true_iff in Hd as [-> _]. }
  assert (E : (if gap then lstrip (ws ++ ds ++ rest) else (ws ++ ds ++ rest)%string)
              = (ds ++ rest)%string).
  { destruct gap.
    - apply lstrip_app; [assumption | now apply starts_digit_not_space].
    - now rewrite (Hg eq_refl). }
  rewrite E, (span_digits_app _ _ Hd Hr).
  destruct ds; [congruence | reflexivity].
Qed.

Lemma forall_chars_impl (p q : ascii -> bool) (s : string) :
  (forall c, p c = true -> q c = true) ->
  forall_chars p s = true -> forall_chars q s = true.
Proof.
  intros Hpq. induction s as [|c s IH]; simpl; [reflexivity|].
  intros H. apply andb_true_iff in H as [H1 H2].
  now rewrite (Hpq _ H1), IH.
Qed.

Lemma forall_chars_mid (p : ascii -> bool) (a b : string) (c : ascii) :
  forall_chars p (a ++ String c b) = true -> p c = true.
Proof.
  rewrite forall_chars_app. simpl. intros H.
  apply andb_true_iff in H as [_ H]. now apply andb_true_iff in H as [H _].
Qed.

(** The marker, white space and one digit are enough for a match: the
    digits of the match are the whole run that starts there. *)
Lemma has_DR_intro (pre ws t : string) (d : ascii) :
  forall_chars is_space ws = true ->
  (gap = false -> ws = EmptyString) ->
  is_digit d = true ->
  has_DR gap (pre ++ "DR" ++ ws ++ String d t).
Proof.
  intros Hw Hg Hd.
  pose proof (span_digits_spec (String d t)) as Hsp.
  destruct (span_digits (String d t)) as [ds rest] eqn:E.
  destruct Hsp as (Es & Hds & Hr).
  exists pre, ws, ds, rest. unfold DR_at.
  rewrite <- Es. repeat split; try assumption.
  simpl in E. rewrite Hd in E. destruct (span_digits t).
  injection E as <- _. discriminate.
Qed.

(** A match stays one when text is added after it, unless the text
    lengthens the digits. *)
Lemma DR_at_app (s pre ws ds rest y : string) :
  DR_at gap s pre ws ds rest ->
  starts_with is_digit (rest ++ y) = false ->
  DR_at gap (s ++ y) pre ws ds (rest ++ y).
Proof.
  intros (-> & H) Hy. split; [|tauto].
  now rewrite !append_assoc.
Qed.

Lemma not_has_DR_empty : ~ has_DR gap EmptyString.
Proof.
  intros (pre & ws & ds & rest & E & _).
  destruct pre; discriminate.
Qed.

Lemma has_DR_cons (c : ascii) (s : string) :
  has_DR gap s -> has_DR gap (String c s).
Proof.
  intros (pre & ws & ds & rest & -> & H).
  exists (String c pre), ws, ds, rest. now split.
Qed.

(** A match at the start of [p ++ "DR" ++ y], with [p] not empty, ends
    inside [p]: neither the white space nor the digit of the match can
    be the letter D. *)
Lemma match_before_marker (p y ws ds rest : string) :
  p <> EmptyString ->
  DR_at gap (p ++ "DR" ++ y) EmptyString ws ds rest ->
  has_DR gap p.
Proof.
  intros Hp (E & Hw & Hg & Hne & Hd & _).
  destruct ds as [|d ds]; [congruence|]. simpl in Hd.
  apply andb_true_iff in Hd as [Hd _].
  assert (E' : (("DR" ++ ws ++ String d "") ++ (ds ++ rest)
                = p ++ "DR" ++ y)%string).
  { rewrite E. simpl. f_equal. f_equal. now rewrite append_assoc. }
  apply append_eq_append in E' as [(w & -> & _)|(c & w & Eu & Ex)].
  - rewrite append_assoc. simpl. rewrite append_assoc. simpl.
    now apply (has_DR_intro EmptyString).
  - exfalso. simpl in Ex. injection Ex as <- _.
    destruct p as [|c0 p]; [congruence|].
    simpl in Eu. injection Eu as _ Eu.
    assert (Hq : forall_chars (fun c => negb (Ascii.eqb c "D"))
                   (String "R" (ws ++ String d "")) = true).
    { simpl. rewrite forall_chars_app. simpl.
      rewrite (forall_chars_impl is_space _ ws); [|
        intros c Hc; destruct (Ascii.eqb_spec c "D") as [->|]; [discriminate | reflexivity] | assumption].
      destruct (Ascii.eqb_spec d "D") as [->|]; [discriminate | reflexivity]. }
    rewrite Eu in Hq. apply forall_chars_mid in Hq. discriminate.
Qed.

(** The extractor returns a number only for the leftmost match, and
    then the number its digits denote. *)
Lemma extract_Some_first (s : string) (n : N) :
  str_extract_DR gap s = Some n ->
  exists pre ws ds rest,
    DR_at gap s pre ws ds rest
    /\ ~ has_DR gap pre
    /\ n = digits_value ds.
Proof.
  unfold str_extract_DR. induction s as [|c s IH]; cbn [re_search].
  - discriminate.
  - destruct (match_DR gap (String c s)) as [k|] eqn:Em.
    + intros [= ->]. apply match_DR_Some in Em as (ws & ds & rest & H & ->).
      exists EmptyString, ws, ds, rest.
      split; [assumption|]. split; [apply not_has_DR_empty | reflexivity].
    + intros H. destruct (IH H) as (pre & ws & ds & rest & Hat & Hno & ->).
      exists (String c pre), ws, ds, rest. split; [|split; [|reflexivity]].
      * destruct Hat as (-> & Hat). now split.
      * intros (p & w & d & r & Hp).
        destruct p as [|c0 p].
        -- destruct Hat as (Es & _).
           assert (Hs : DR_at gap (String c s) EmptyString w d
                          (r ++ "DR" ++ ws ++ ds ++ rest)).
           { rewrite Es.
             change (String c (pre ++ "DR" ++ ws ++ ds ++ rest))%string
               with (String c pre ++ "DR" ++ ws ++ ds ++ rest)%string.
             apply DR_at_app; [assumption|].
             destruct Hp as (_ & _ & _ & _ & _ & Hr).
             destruct r; [reflexivity | exact Hr]. }
           apply match_DR_at in Hs. congruence.
        -- apply Hno. destruct Hp as (Ep & Hp). simpl in Ep.
           injection Ep as _ ->. exists p, w, d, r. now split.
Qed.

(** Conversely the leftmost match decides the result. *)
Lemma re_search_cons {A : Type} (m : string -> option A) (c : ascii)
  (s : string) :
  re_search m (String c s)
  = match m (String c s) with Some x => Some x | None => re_search m s end.
Proof. reflexivity. Qed.

(** Conversely the leftmost match decides the result. *)
Lemma extract_first_Some (s pre ws ds rest : string) :
  DR_at gap s pre ws ds rest ->
  ~ has_DR gap pre ->
  str_extract_DR gap s = Some (digits_value ds).
Proof.
  unfold str_extract_DR. revert s.
  induction pre as [|c pre IH]; intros s Hat Hno.
  - apply match_DR_at in Hat. destruct s; cbn [re_search]; now rewrite Hat.
  - pose proof Hat as (-> & Hrest).
    change (String c pre ++ "DR" ++ ws ++ ds ++ rest)%string
      with (String c (pre ++ "DR" ++ ws ++ ds ++ rest))%string in *.
    rewrite re_search_cons.
    destruct (match_DR gap (String c (pre ++ "DR" ++ ws ++ ds ++ rest)))
      as [k|] eqn:Em.
    + exfalso. apply Hno.
      apply match_DR_Some in Em as (w' & d' & r' & Hm & _).
      apply (match_before_marker (String c pre) (ws ++ ds ++ rest) w' d' r');
        [discriminate | exact Hm].
    + apply IH; [now split|].
      intros H. apply Hno. now apply has_DR_cons.
Qed.

Lemma has_DR_extract (s : string) :
  has_DR gap s -> str_extract_DR gap s <> None.
Proof.
  intros (pre & ws & ds & rest & Hat). unfold str_extract_DR. revert s Hat.
  induction pre as [|c pre IH]; intros s Hat.
  - apply match_DR_at in Hat. destruct s; cbn [re_search]; now rewrite Hat.
  - pose proof Hat as (-> & Hrest).
    change (String c pre ++ "DR" ++ ws ++ ds ++ rest)%string
      with (String c (pre ++ "DR" ++ ws ++ ds ++ rest))%string.
    rewrite re_search_cons.
    destruct (match_DR gap _); [discriminate|].
    apply IH. now split.
Qed.

Lemma extract_None_iff (s : string) :
  str_extract_DR gap s = None <-> ~ has_DR gap s.
Proof.
  split.
  - intros E H. now apply has_DR_extract in H.
  - intros H. destruct (str_extract_DR gap s) as [n|] eqn:E; [|reflexivity].
    exfalso. apply H.
    apply extract_Some_first in E as (pre & ws & ds & rest & Hat & _).
    now exists pre, ws, ds, rest.
Qed.

End ExtractorFacts.

Example extract_POS_sample : str_extract_DR false "DR15322" = Some 15322.
Proof. reflexivity. Qed.

Example extract_log_sample :
  str_extract_DR true "Job DR 15322 final" = Some 15322.
Proof. reflexivity. Qed.

Example extract_second_marker :
  str_extract_DR true "xDRDR  007a" = Some 7.
Proof. reflexivity. Qed.

(** C1, as the code has it.  The extractor returns the number that the
    digits of the leftmost match denote, and is absent exactly when the
    text has no match.  A match is the marker DR in upper case, then (in
    a job name of the printer log only) optional white space, then the
    whole run of digits.  So "DR15322" gives 15322 on both sides,
    "DR 15322" gives 15322 on the printer-log side and nothing on the POS
    side, and "INV-999" gives nothing. *)
Theorem extractor_leftmost_upper_case_DR :
  (forall gap s n,
      str_extract_DR gap s = Some n <->
      exists pre ws ds rest,
        DR_at gap s pre ws ds rest /\ ~ has_DR gap pre /\ n = digits_value ds)
  /\ (forall gap s, str_extract_DR gap s = None <-> ~ has_DR gap s)
  /\ (forall inv item qty cust,
         pos_DR_Num {| Invoice_No := inv; Item_Name := item;
                       Sales_Qty := qty; Customer_Name := cust |}
         = str_extract_DR false inv)
  /\ (forall job pages owner time,
         fuji_DR_Num {| Job_Name := Some job; Printed_Pages := pages;
                        Owner := owner; Recorded_Date_Time := time |}
         = str_extract_DR true job)
  /\ str_extract_DR false "DR15322" = Some 15322
  /\ str_extract_DR true "DR15322" = Some 15322
  /\ str_extract_DR true "DR 15322" = Some 15322
  /\ str_extract_DR false "DR 15322" = None
  /\ str_extract_DR false "INV-999" = None
  /\ str_extract_DR true "INV-999" = None.
Proof.
  split; [|split; [|repeat split]].
  - intros gap s n. split.
    + apply extract_Some_first.
    + intros (pre & ws & ds & rest & Hat & Hno & ->).
      now apply extract_first_Some with (pre := pre) (ws := ws) (rest := rest).
  - apply extract_None_iff.
Qed.

(** C1, as stated, fails: the marker is matched in upper case only, so a
    lower-case or mixed-case marker yields no identifier, on either
    side. *)
Lemma extractor_lower_case_marker_absent :
  str_extract_DR false "dr15322" = None
  /\ str_extract_DR true "dr15322" = None
  /\ str_extract_DR true "Dr 15322" = None
  /\ str_extract_DR true (upper "dr15322") = Some 15322.
Proof. repeat split. Qed.

(** ** Matching without regard to case *)

Section CaseFacts.







Lemma prefix_nocase_iff (p s : string) :
  prefix_nocase p s = true
  <-> exists mid post, s = (mid ++ post)%string /\ lower mid = lower p.
Proof.
  revert s. induction p as [|a p IH]; intros s; simpl.
  - split; [|reflexivity]. intros _. exists EmptyString, s. now split.
  - destruct s as [|b s].
    + split; [discriminate|].
      intros (mid & post & E & H). destruct mid; discriminate.
    + rewrite andb_true_iff, Ascii.eqb_eq, IH. split.
      * intros (Hc & mid & post & -> & H).
        exists (String b mid), post. simpl. now rewrite H, Hc.
      * intros (mid & post & E & H).
        destruct mid as [|m mid]; [discriminate|].
        simpl in E, H. injection E as -> ->. injection H as Hc H.
        split; [now symmetry|]. now exists mid, post.
Qed.

Lemma contains_nocase_iff (p s : string) :
  contains_nocase p s = true <-> occurs_nocase p s.
Proof.
  unfold occurs_nocase. induction s as [|c s IH].
  - simpl. rewrite orb_false_r, prefix_nocase_iff. split.
    + intros (mid & post & E & H). now exists EmptyString, mid, post.
    + intros (pre & mid & post & E & H).
      destruct pre; [|discriminate]. now exists mid, post.
  - cbn [contains_nocase]. rewrite orb_true_iff, prefix_nocase_iff, IH.
    split.
    + intros [(mid & post & E & H)|(pre & mid & post & E & H)].
      * now exists EmptyString, mid, post.
      * exists (String c pre), mid, post. simpl. now rewrite E.
    + intros (pre & mid & post & E & H). destruct pre as [|x pre].
      * left. now exists mid, post.
      * right. simpl in E. injection E as _ E. now exists pre, mid, post.
Qed.

(** The case of the pattern does not matter either. *)
Lemma occurs_nocase_pattern (p q s : string) :
  lower p = lower q -> (occurs_nocase p s <-> occurs_nocase q s).
Proof.
  intros E. unfold occurs_nocase.
  split; intros (pre & mid & post & Hs & H); exists pre, mid, post;
    split; congruence.
Qed.




End CaseFacts.

(** ** Sorting and grouping *)

Section SortFacts.
Context {A : Type}.
Variable leb : A -> A -> bool.

Lemma insert_by_perm (x : A) (l : list A) :
  Permutation (insert_by leb x l) (x :: l).
Proof.
  induction l as [|y l IH]; simpl; [reflexivity|].
  destruct (leb x y); [reflexivity|].
  rewrite IH. apply perm_swap.
Qed.

Lemma sort_by_perm (l : list A) : Permutation (sort_by leb l) l.
Proof.
  induction l as [|x l IH]; simpl; [reflexivity|].
  rewrite insert_by_perm. now constructor.
Qed.

Lemma sort_by_In (l : list A) (x : A) : In x (sort_by leb l) <-> In x l.
Proof.
  split; apply Permutation_in;
    [apply sort_by_perm | symmetry; apply sort_by_perm].
Qed.

Lemma sort_by_length (l : list A) : length (sort_by leb l) = length l.
Proof. apply Permutation_length, sort_by_perm. Qed.
End SortFacts.

Section InsertionSortFacts.
Context {A : Type}.
Variable leb : A -> A -> bool.
Hypothesis leb_total : forall x y, leb x y = true \/ leb y x = true.
Hypothesis leb_trans :
  forall x y z, leb x y = true -> leb y z = true -> leb x z = true.

Local Abbreviation R := (fun x y => leb x y = true).

Lemma insert_by_sorted (x : A) (l : list A) :
  StronglySorted R l -> StronglySorted R (insert_by leb x l).
Proof.
  induction l as [|y l IH]; simpl; intros H.
  - constructor; constructor.
  - inversion H as [|? ? Hs Hf]; subst.
    destruct (leb x y) eqn:E.
    + constructor; [exact H|]. constructor; [exact E|].
      rewrite Forall_forall in *. intros z Hz.
      now apply leb_trans with (y := y); [|apply Hf].
    + constructor; [now apply IH|].
      rewrite Forall_forall in *. intros z Hz.
      apply (Permutation_in _ (insert_by_perm leb x l)) in Hz.
      destruct Hz as [<-|Hz]; [|now apply Hf].
      destruct (leb_total x y); congruence.
Qed.

Lemma sort_by_sorted (l : list A) : StronglySorted R (sort_by leb l).
Proof.
  induction l as [|x l IH]; simpl; [constructor|].
  now apply insert_by_sorted.
Qed.
End InsertionSortFacts.

Section GroupByFacts.
Context {R K A : Type}.
Variable eqb : K -> K -> bool.
Variable leb : K -> K -> bool.
Variable key : R -> option K.
Variable init : K -> R -> A.
Variable step : A -> R -> A.
Hypothesis eqb_eq : forall x y, eqb x y = true <-> x = y.

Local Abbreviation ups := (upsert eqb init step).
Local Abbreviation addr := (add_row eqb key init step).
Local Abbreviation coll := (collect eqb key init step).
Local Abbreviation grp := (groupby eqb leb key init step).

Lemma eqb_refl (k : K) : eqb k k = true.
Proof. now apply eqb_eq. Qed.

Lemma eqb_neq (x y : K) : x <> y -> eqb x y = false.
Proof.
  intros H. destruct (eqb x y) eqn:E; [|reflexivity].
  now apply eqb_eq in E.
Qed.

Lemma agg_from_Some (k : K) (a : A) (rs : list R) :
  agg_from init step k (Some a) rs = Some (fold_left step rs a).
Proof.
  revert a. induction rs as [|r rs IH]; intros a; simpl; [reflexivity|].
  apply IH.
Qed.

Lemma assoc_upsert_same (k : K) (r : R) (g : list (K * A)) :
  assoc eqb k (ups k r g)
  = Some (match assoc eqb k g with Some a => step a r | None => init k r end).
Proof.
  induction g as [|[k' a] g IH]; simpl.
  - now rewrite eqb_refl.
  - destruct (eqb k k') eqn:E; simpl; rewrite E; [reflexivity | exact IH].
Qed.

Lemma assoc_upsert_other (k k0 : K) (r : R) (g : list (K * A)) :
  k <> k0 -> assoc eqb k (ups k0 r g) = assoc eqb k g.
Proof.
  intros Hne. induction g as [|[k' a] g IH]; simpl.
  - now rewrite (eqb_neq _ _ Hne).
  - destruct (eqb k0 k') eqn:E; simpl.
    + apply eqb_eq in E. subst k'. now rewrite (eqb_neq _ _ Hne).
    + now rewrite IH.
Qed.

Lemma keys_upsert (k k0 : K) (r : R) (g : list (K * A)) :
  In k (map fst (ups k0 r g)) <-> k = k0 \/ In k (map fst g).
Proof.
  induction g as [|[k' a] g IH]; simpl.
  - intuition.
  - destruct (eqb k0 k') eqn:E; simpl.
    + apply eqb_eq in E. subst k'. intuition.
    + rewrite IH. intuition.
Qed.

Lemma NoDup_upsert (k0 : K) (r : R) (g : list (K * A)) :
  NoDup (map fst g) -> NoDup (map fst (ups k0 r g)).
Proof.
  induction g as [|[k' a] g IH]; simpl; intros H.
  - constructor; [intros [] | constructor].
  - inversion H as [|? ? Hn Hd]; subst.
    destruct (eqb k0 k') eqn:E; simpl.
    + now constructor.
    + constructor; [|now apply IH].
      rewrite keys_upsert. intros [->|Hin]; [|contradiction].
      now rewrite eqb_refl in E.
Qed.

Lemma In_assoc (k : K) (a : A) (g : list (K * A)) :
  NoDup (map fst g) -> (In (k, a) g <-> assoc eqb k g = Some a).
Proof.
  induction g as [|[k' a'] g IH]; simpl; intros H.
  - split; [intros [] | discriminate].
  - inversion H as [|? ? Hn Hd]; subst.
    destruct (eqb k k') eqn:E.
    + apply eqb_eq in E. subst k'. split.
      * intros [[= ->]|Hin]; [reflexivity|].
        exfalso. apply Hn. apply in_map_iff. now exists (k, a).
      * intros [= ->]. now left.
    + rewrite <- (IH Hd). split; [|now right].
      intros [[= -> ->]|Hin]; [|assumption].
      now rewrite eqb_refl in E.
Qed.

Lemma fold_add_row_NoDup (rows : list R) (g : list (K * A)) :
  NoDup (map fst g) -> NoDup (map fst (fold_left addr rows g)).
Proof.
  revert g. induction rows as [|r rows IH]; intros g H; simpl; [assumption|].
  apply IH. unfold add_row.
  destruct (key r); [now apply NoDup_upsert | assumption].
Qed.

Lemma fold_add_row_keys (rows : list R) (g : list (K * A)) (k : K) :
  In k (map fst (fold_left addr rows g))
  <-> In k (map fst g) \/ exists r, In r rows /\ key r = Some k.
Proof.
  revert g. induction rows as [|r rows IH]; intros g; simpl.
  - split; [now left | intros [H|(r & [] & _)]; exact H].
  - rewrite IH. unfold add_row.
    destruct (key r) as [k0|] eqn:Ek.
    + rewrite keys_upsert. split.
      * intros [[->|H]|(r' & Hin & Hk)].
        -- right. exists r. now split; [left|].
        -- now left.
        -- right. exists r'. now split; [right|].
      * intros [H|(r' & [<-|Hin] & Hk)].
        -- left. now right.
        -- left. left. congruence.
        -- right. now exists r'.
    + split.
      * intros [H|(r' & Hin & Hk)]; [now left|].
        right. exists r'. now split; [right|].
      * intros [H|(r' & [<-|Hin] & Hk)]; [now left | congruence |].
        right. now exists r'.
Qed.

Lemma fold_add_row_assoc (rows : list R) (g : list (K * A)) (k : K) :
  assoc eqb k (fold_left addr rows g)
  = agg_from init step k (assoc eqb k g) (rows_of eqb key k rows).
Proof.
  revert g. induction rows as [|r rows IH]; intros g; simpl; [reflexivity|].
  rewrite IH. unfold add_row.
  destruct (key r) as [k0|] eqn:Ek; [|reflexivity].
  destruct (eqb k0 k) eqn:E.
  - apply eqb_eq in E. subst k0. simpl. now rewrite assoc_upsert_same.
  - rewrite assoc_upsert_other; [reflexivity|].
    intros ->. now rewrite eqb_refl in E.
Qed.

(** No group has two rows, and the groups are those of the keys that
    occur. *)
Lemma collect_NoDup (rows : list R) : NoDup (map fst (coll rows)).
Proof. apply fold_add_row_NoDup. constructor. Qed.

Lemma collect_keys (rows : list R) (k : K) :
  In k (map fst (coll rows)) <-> exists r, In r rows /\ key r = Some k.
Proof.
  unfold collect.
  rewrite fold_add_row_keys. simpl. tauto.
Qed.

(** The aggregate of a group is that of its rows, taken in row order. *)
Lemma collect_assoc (rows : list R) (k : K) :
  assoc eqb k (coll rows)
  = match rows_of eqb key k rows with
    | [] => None
    | r :: t => Some (fold_left step t (init k r))
    end.
Proof.
  unfold collect.
  rewrite fold_add_row_assoc. simpl.
  destruct (rows_of eqb key k rows) as [|r t]; [reflexivity|].
  simpl. apply agg_from_Some.
Qed.

(** A row without a key leaves the groups as they are. *)
Lemma collect_skip_null (l1 l2 : list R) (r : R) :
  key r = None -> coll (l1 ++ r :: l2) = coll (l1 ++ l2).
Proof.
  intros Hk. unfold collect.
  rewrite !fold_left_app. simpl.
  unfold add_row. now rewrite Hk.
Qed.

Lemma groupby_In (rows : list R) (a : A) :
  In a (grp rows) <-> exists k, assoc eqb k (coll rows) = Some a.
Proof.
  unfold groupby.
  rewrite in_map_iff. split.
  - intros ([k a'] & <- & Hin). apply sort_by_In in Hin.
    exists k. now apply In_assoc; [apply collect_NoDup|].
  - intros (k & Hk). exists (k, a). split; [reflexivity|].
    apply sort_by_In. now apply In_assoc; [apply collect_NoDup|].
Qed.

(** When the aggregate carries its key in a column [proj]. *)
Section KeyColumn.
Variable proj : A -> K.
Hypothesis proj_init : forall k r, proj (init k r) = k.
Hypothesis proj_step : forall a r, proj (step a r) = proj a.

Lemma upsert_proj (k0 : K) (r : R) (g : list (K * A)) :
  Forall (fun x => proj (snd x) = fst x) g ->
  Forall (fun x => proj (snd x) = fst x) (ups k0 r g).
Proof.
  induction g as [|[k' a] g IH]; simpl; intros H.
  - constructor; [apply proj_init | constructor].
  - inversion H as [|? ? Hx Hg]; subst. simpl in Hx.
    destruct (eqb k0 k'); constructor; simpl; auto.
    now rewrite proj_step.
Qed.

Lemma collect_proj (rows : list R) :
  Forall (fun x => proj (snd x) = fst x) (coll rows).
Proof.
  unfold collect.
  assert (H : Forall (fun x : K * A => proj (snd x) = fst x) [])
    by constructor.
  revert H. generalize (@nil (K * A)).
  induction rows as [|r rows IH]; intros g H; simpl; [assumption|].
  apply IH. unfold add_row.
  destruct (key r); [now apply upsert_proj | assumption].
Qed.

Lemma groupby_keys_perm (rows : list R) :
  Permutation (map proj (grp rows)) (map fst (coll rows)).
Proof.
  unfold groupby.
  rewrite map_map.
  transitivity (map (fun x => proj (snd x)) (coll rows)).
  - apply Permutation_map, sort_by_perm.
  - apply Permutation_refl'. apply map_ext_Forall, collect_proj.
Qed.

Lemma groupby_NoDup (rows : list R) : NoDup (map proj (grp rows)).
Proof.
  eapply Permutation_NoDup;
    [symmetry; apply groupby_keys_perm | apply collect_NoDup].
Qed.

Lemma groupby_keys (rows : list R) (k : K) :
  In k (map proj (grp rows))
  <-> exists r, In r rows /\ key r = Some k.
Proof.
  rewrite <- collect_keys. split; apply Permutation_in;
    [apply groupby_keys_perm | symmetry; apply groupby_keys_perm].
Qed.

(** Each row of the grouped table is the aggregate of the rows that
    have its key; there is at least one. *)
Lemma groupby_row (rows : list R) (a : A) :
  In a (grp rows) ->
  exists r t, rows_of eqb key (proj a) rows = r :: t
              /\ a = fold_left step t (init (proj a) r).
Proof.
  intros Hin. pose proof Hin as Hin'.
  apply groupby_In in Hin as (k & Hk).
  assert (Hp : proj a = k).
  { apply In_assoc in Hk; [|apply collect_NoDup].
    pose proof (collect_proj rows) as HF.
    rewrite Forall_forall in HF. exact (HF _ Hk). }
  rewrite Hp. rewrite collect_assoc in Hk.
  destruct (rows_of eqb key k rows) as [|r t]; [discriminate|].
  injection Hk as <-. now exists r, t.
Qed.
(** The grouped table is in ascending order of the key. *)
Lemma groupby_sorted (rows : list R) :
  (forall x y, leb x y = true \/ leb y x = true) ->
  (forall x y z, leb x y = true -> leb y z = true -> leb x z = true) ->
  StronglySorted (fun a b => leb (proj a) (proj b) = true) (grp rows).
Proof.
  intros Htot Htrans. unfold groupby.
  pose proof (sort_by_sorted (fun x y : K * A => leb (fst x) (fst y))
                (fun x y => Htot (fst x) (fst y))
                (fun x y z => Htrans (fst x) (fst y) (fst z))
                (coll rows)) as Hs.
  assert (Hf : Forall (fun x => proj (snd x) = fst x)
                 (sort_by (fun x y => leb (fst x) (fst y)) (coll rows))).
  { rewrite Forall_forall. intros x Hx. apply sort_by_In in Hx.
    pose proof (collect_proj rows) as Hc. rewrite Forall_forall in Hc.
    now apply Hc. }
  induction Hs as [|x l Hl IH Hx]; simpl; [constructor|].
  inversion Hf as [|? ? Hpx Hfl]; subst.
  constructor; [now apply IH|].
  rewrite Forall_forall in *. intros b Hb.
  apply in_map_iff in Hb as (y & <- & Hy).
  rewrite Hpx, (Hfl _ Hy). now apply Hx.
Qed.
End KeyColumn.

End GroupByFacts.

(** ** The POS normalizer *)

Section PosFacts.

Variable to_numeric : string -> option Z.

Local Abbreviation calc := (calc_pages to_numeric).
Local Abbreviation grouped := (pos_grouped to_numeric).

Lemma filter_filter {A : Type} (f g : A -> bool) (l : list A) :
  filter f (filter g l) = filter (fun x => g x && f x) l.
Proof.
  induction l as [|x l IH]; simpl; [reflexivity|].
  destruct (g x); simpl; [destruct (f x)|]; now rewrite IH.
Qed.

Lemma pos_print_filter (pos_df : list pos_row) :
  pos_print pos_df = filter keep pos_df.
Proof. unfold pos_print. apply filter_filter. Qed.

Lemma keep_retained (r : pos_row) : keep r = true <-> retained r.
Proof.
  unfold keep, retained, str_contains.
  destruct (Item_Name r) as [item|].
  - rewrite andb_true_iff, negb_true_iff, orb_false_iff.
    rewrite contains_nocase_iff.
    rewrite <- !not_true_iff_false, !contains_nocase_iff.
    rewrite (occurs_nocase_pattern "DIGITAL PRINT" "digital print")
      by reflexivity.
    rewrite (occurs_nocase_pattern "PROOF" "proof") by reflexivity.
    rewrite (occurs_nocase_pattern "STICKER" "sticker") by reflexivity.
    split.
    + intros (H1 & H2 & H3). now exists item.
    + intros (item' & [= <-] & H). exact H.
  - split; [discriminate|]. intros (item & E & _). discriminate.
Qed.

Lemma pos_print_In (pos_df : list pos_row) (r : pos_row) :
  In r (pos_print pos_df) <-> In r pos_df /\ retained r.
Proof. now rewrite pos_print_filter, filter_In, keep_retained. Qed.

Lemma pos_print_drop (l1 l2 : list pos_row) (r : pos_row) :
  ~ retained r -> pos_print (l1 ++ r :: l2) = pos_print (l1 ++ l2).
Proof.
  intros H. rewrite !pos_print_filter, !filter_app. simpl.
  destruct (keep r) eqn:E; [|reflexivity].
  now apply keep_retained in E.
Qed.

Lemma pos_fold_Expected (t : list pos_row) (a : pos_group) :
  pg_Expected_Pages (fold_left (pos_step to_numeric) t a)
  = (pg_Expected_Pages a + sum_Z (map (fun r => fillna0 (calc r)) t))%Z.
Proof.
  revert a. induction t as [|r t IH]; intros a; simpl; [lia|].
  rewrite IH. simpl. unfold sum_skipna, Expected_Pages. lia.
Qed.

Lemma pos_fold_Invoice (t : list pos_row) (a : pos_group) :
  pg_Invoice_No (fold_left (pos_step to_numeric) t a) = pg_Invoice_No a.
Proof. revert a. induction t as [|r t IH]; intros a; simpl; [|rewrite IH]; reflexivity. Qed.

Lemma pos_grouped_NoDup (pos_df : list pos_row) :
  NoDup (map pg_DR_Num (grouped pos_df)).
Proof. now apply groupby_NoDup; [apply N.eqb_eq | |]. Qed.

Lemma pos_grouped_keys (pos_df : list pos_row) (k : N) :
  In k (map pg_DR_Num (grouped pos_df))
  <-> exists r, In r (pos_print pos_df) /\ pos_DR_Num r = Some k.
Proof. now apply groupby_keys; [apply N.eqb_eq | |]. Qed.

(** A group shows the invoice of its first row and the sum of the
    expected pages of its rows, a [NaN] counting for nothing. *)
Lemma pos_grouped_row (pos_df : list pos_row) (g : pos_group) :
  In g (grouped pos_df) ->
  exists r t,
    rows_of N.eqb pos_DR_Num (pg_DR_Num g) (pos_print pos_df) = r :: t
    /\ pg_Invoice_No g = Invoice_No r
    /\ pg_Expected_Pages g
       = sum_Z (map (fun r => fillna0 (calc r)) (r :: t)).
Proof.
  intros Hin.
  apply (groupby_row N.eqb N.leb pos_DR_Num (pos_init to_numeric)
           (pos_step to_numeric)
           N.eqb_eq pg_DR_Num) in Hin as (r & t & E & Hg);
    [|reflexivity|reflexivity].
  exists r, t. split; [exact E|]. rewrite Hg at 1 2.
  rewrite pos_fold_Invoice, pos_fold_Expected. simpl.
  unfold sum_skipna, Expected_Pages. split; [reflexivity | lia].
Qed.

Lemma collect_filter_null {R K A : Type} (eqb : K -> K -> bool)
  (key : R -> option K) (init : K -> R -> A) (step : A -> R -> A)
  (rows : list R) :
  collect eqb key init step (filter (fun r => negb (isnull (key r))) rows)
  = collect eqb key init step rows.
Proof.
  unfold collect. generalize (@nil (K * A)).
  induction rows as [|r rows IH]; intros g; simpl; [reflexivity|].
  unfold add_row at 3. destruct (key r) as [k|] eqn:E; simpl.
  - rewrite IH. unfold add_row at 2. now rewrite E.
  - apply IH.
Qed.

(** Rows that have no DR number take no part in the aggregation. *)
Lemma pos_grouped_with_DR_Num (pos_df : list pos_row) :
  grouped (with_DR_Num pos_df) = grouped pos_df.
Proof.
  unfold pos_grouped, groupby, with_DR_Num.
  rewrite !pos_print_filter, filter_filter.
  rewrite <- (collect_filter_null _ _ _ _ (filter keep pos_df)).
  rewrite filter_filter. do 3 f_equal.
  apply filter_ext. intros r. apply andb_comm.
Qed.

End PosFacts.

(** ** The outer join *)

Section ListFacts.
Context {A : Type}.

Lemma filter_split_perm (f : A -> bool) (l : list A) :
  Permutation (filter f l ++ filter (fun x => negb (f x)) l) l.
Proof.
  induction l as [|x l IH]; simpl; [reflexivity|].
  destruct (f x); simpl.
  - now constructor.
  - rewrite <- Permutation_middle. now constructor.
Qed.

Lemma filter_perm (keep : A -> bool) (rows rows' : list A)
  (Hperm : Permutation rows rows') :
  Permutation (filter keep rows) (filter keep rows').
Proof.
  induction Hperm as [|x l l' _ IH|x y l|l l' l'' _ IH1 _ IH2]; simpl.
  - reflexivity.
  - destruct (keep x); [now constructor | assumption].
  - destruct (keep x), (keep y); try reflexivity. apply perm_swap.
  - now transitivity (filter keep l').
Qed.

(** A key that occurs once selects one row. *)
Lemma filter_key_NoDup (f : A -> N) (k : N) (l : list A) :
  NoDup (map f l) ->
  filter (fun x => f x =? k) l = []
  \/ exists x, filter (fun x => f x =? k) l = [x].
Proof.
  induction l as [|x l IH]; simpl; intros H; [now left|].
  inversion H as [|? ? Hn Hd]; subst.
  destruct (f x =? k) eqn:E.
  - right. exists x. f_equal.
    destruct (filter (fun y => f y =? k) l) as [|y t] eqn:Ef; [reflexivity|].
    exfalso. apply Hn.
    assert (Hy : In y (filter (fun y => f y =? k) l)) by (rewrite Ef; now left).
    apply filter_In in Hy as [Hy Ek].
    apply N.eqb_eq in E, Ek. rewrite E, <- Ek. now apply in_map.
  - now apply IH.
Qed.

Lemma filter_key_length (f : A -> N) (k : N) (l : list A) :
  NoDup (map f l) -> In k (map f l) ->
  length (filter (fun x => f x =? k) l) = 1%nat.
Proof.
  intros Hd Hin. destruct (filter_key_NoDup f k l Hd) as [E|(x & E)].
  - exfalso. apply in_map_iff in Hin as (x & Hx & Hin).
    assert (Hf : In x (filter (fun x => f x =? k) l)).
    { apply filter_In. split; [assumption | now apply N.eqb_eq]. }
    now rewrite E in Hf.
  - now rewrite E.
Qed.

Lemma filter_keeps_distinct_keys {K : Type} (key : A -> K)
  (keep : A -> bool) (rows : list A) (Hkeys : NoDup (map key rows)) :
  NoDup (map key (filter keep rows)).
Proof.
  induction rows as [|x rows IH]; simpl; [constructor|].
  inversion Hkeys as [|? ? Hn Hd]; subst.
  destruct (keep x); simpl; [|now apply IH].
  constructor; [|now apply IH].
  intros Hin. apply Hn. apply in_map_iff in Hin as (y & Hy & Hin).
  apply filter_In in Hin as [Hin _]. apply in_map_iff. now exists y.
Qed.
End ListFacts.

Section MergeFacts.

Variable ls : list pos_group.
Variable rs : list fuji_group.

Local Abbreviation keysL := (map pg_DR_Num ls).
Local Abbreviation keysR := (map fg_DR_Num rs).

Lemma join_left_rows (a : pos_group) (m : merged_row) :
  In m (join_left rs a) ->
  (m = row_left a /\ ~ In (pg_DR_Num a) keysR)
  \/ (exists b, In b rs /\ fg_DR_Num b = pg_DR_Num a /\ m = row_both a b).
Proof.
  unfold join_left.
  destruct (filter (fun b => fg_DR_Num b =? pg_DR_Num a) rs) as [|b bs] eqn:E.
  - intros [<-|[]]. left. split; [reflexivity|].
    intros Hin. apply in_map_iff in Hin as (b & Hb & Hin).
    assert (Hf : In b (filter (fun b => fg_DR_Num b =? pg_DR_Num a) rs)).
    { apply filter_In. split; [assumption | now apply N.eqb_eq]. }
    now rewrite E in Hf.
  - intros Hin. right. apply in_map_iff in Hin as (b' & <- & Hin).
    rewrite <- E in Hin. apply filter_In in Hin as [Hin Hk].
    apply N.eqb_eq in Hk. now exists b'.
Qed.

Lemma join_left_key (a : pos_group) :
  map m_DR_Num (join_left rs a)
  = map (fun _ => pg_DR_Num a) (join_left rs a).
Proof.
  apply map_ext_in. intros m Hin.
  now apply join_left_rows in Hin as [[-> _]|(b & _ & _ & ->)].
Qed.

Lemma join_left_single (a : pos_group) :
  NoDup keysR -> exists m, join_left rs a = [m].
Proof.
  intros Hd. unfold join_left.
  destruct (filter_key_NoDup fg_DR_Num (pg_DR_Num a) rs Hd) as [E|(b & E)];
    rewrite E; simpl; eexists; reflexivity.
Qed.

Lemma joined_keys :
  NoDup keysR -> map m_DR_Num (flat_map (join_left rs) ls) = keysL.
Proof.
  intros Hd. induction ls as [|a l IH]; simpl; [reflexivity|].
  rewrite map_app, IH. f_equal. rewrite join_left_key.
  now destruct (join_left_single a Hd) as (m & ->).
Qed.

Lemma right_rows_keys (k : N) :
  In k (map m_DR_Num
          (map row_right
             (filter (fun b =>
                        negb (existsb (fun a => pg_DR_Num a =? fg_DR_Num b) ls))
                     rs)))
  <-> In k keysR /\ ~ In k keysL.
Proof.
  rewrite map_map. simpl. rewrite in_map_iff. split.
  - intros (b & <- & Hin). apply filter_In in Hin as [Hin Hn].
    split; [now apply in_map|].
    intros HL. apply in_map_iff in HL as (a & Ha & HL).
    apply negb_true_iff in Hn.
    assert (Hex : existsb (fun a => pg_DR_Num a =? fg_DR_Num b) ls = true).
    { apply existsb_exists. exists a. split; [assumption | now apply N.eqb_eq]. }
    congruence.
  - intros (HR & HL). apply in_map_iff in HR as (b & <- & Hin).
    exists b. split; [reflexivity|]. apply filter_In. split; [assumption|].
    apply negb_true_iff.
    destruct (existsb _ ls) eqn:Hex; [|reflexivity].
    exfalso. apply HL. apply existsb_exists in Hex as (a & Ha & Hk).
    apply N.eqb_eq in Hk. rewrite <- Hk. now apply in_map.
Qed.

Lemma merge_outer_perm :
  Permutation (merge_outer ls rs)
    (flat_map (join_left rs) ls
     ++ map row_right
          (filter (fun b =>
                     negb (existsb (fun a => pg_DR_Num a =? fg_DR_Num b) ls))
                  rs)).
Proof. apply sort_by_perm. Qed.

(** With one row a key on each side, the join has one row a key. *)
Lemma merge_outer_NoDup :
  NoDup keysL -> NoDup keysR -> NoDup (map m_DR_Num (merge_outer ls rs)).
Proof.
  intros HL HR.
  eapply Permutation_NoDup;
    [symmetry; apply Permutation_map, merge_outer_perm|].
  rewrite map_app, (joined_keys HR).
  apply NoDup_app; [assumption| |].
  - rewrite map_map. simpl. now apply filter_keeps_distinct_keys.
  - intros k Hk Hin. apply right_rows_keys in Hin. tauto.
Qed.

Lemma merge_outer_keys (k : N) :
  NoDup keysR ->
  (In k (map m_DR_Num (merge_outer ls rs)) <-> In k keysL \/ In k keysR).
Proof.
  intros HR.
  assert (Hp := Permutation_map m_DR_Num merge_outer_perm).
  rewrite map_app, (joined_keys HR) in Hp.
  split.
  - intros Hin. apply (Permutation_in _ Hp) in Hin.
    apply in_app_or in Hin as [Hin|Hin]; [now left|].
    apply right_rows_keys in Hin. tauto.
  - intros Hin. apply (Permutation_in _ (Permutation_sym Hp)).
    apply in_or_app.
    destruct (in_dec N.eq_dec k keysL) as [HL|HL]; [now left|].
    right. apply right_rows_keys. tauto.
Qed.

(** Where a row of the join comes from, by its indicator. *)
Lemma merge_outer_rows (m : merged_row) :
  In m (merge_outer ls rs) ->
  match m_merge m with
  | left_only =>
      exists a, In a ls /\ m = row_left a /\ ~ In (pg_DR_Num a) keysR
  | both =>
      exists a b, In a ls /\ In b rs
                  /\ fg_DR_Num b = pg_DR_Num a /\ m = row_both a b
  | right_only =>
      exists b, In b rs /\ m = row_right b /\ ~ In (fg_DR_Num b) keysL
  end.
Proof.
  intros Hin. apply (Permutation_in _ merge_outer_perm) in Hin.
  apply in_app_or in Hin as [Hin|Hin].
  - apply in_flat_map in Hin as (a & Ha & Hin).
    apply join_left_rows in Hin as [[-> Hn]|(b & Hb & Hk & ->)]; simpl.
    + now exists a.
    + now exists a, b.
  - apply in_map_iff in Hin as (b & <- & Hin). simpl.
    exists b. apply filter_In in Hin as [Hin Hn].
    split; [assumption|]. split; [reflexivity|].
    pose proof (right_rows_keys (fg_DR_Num b)) as [Hk _].
    apply Hk. rewrite map_map. simpl. apply in_map_iff.
    exists b. split; [reflexivity|]. now apply filter_In.
Qed.

End MergeFacts.

(** ** The reconciliation matcher *)

Section MatcherFacts.

Variable to_numeric : string -> option Z.
Variable pos_df : list pos_row.
Variable fuji_df : list fuji_row.

Local Abbreviation ls := (pos_grouped to_numeric pos_df).
Local Abbreviation rs := (fuji_grouped to_numeric fuji_df).
Local Abbreviation mg := (merged to_numeric pos_df fuji_df).

Lemma fuji_grouped_NoDup : NoDup (map fg_DR_Num rs).
Proof. now apply groupby_NoDup; [apply N.eqb_eq | |]. Qed.

Lemma fuji_grouped_keys (k : N) :
  In k (map fg_DR_Num rs)
  <-> exists r, In r fuji_df /\ fuji_DR_Num r = Some k.
Proof.
  unfold fuji_grouped.
  rewrite (groupby_keys N.eqb N.leb fuji_DR_Num (fuji_init to_numeric)
             (fuji_step to_numeric) N.eqb_eq fg_DR_Num
             (fun _ _ => eq_refl) (fun _ _ => eq_refl)).
  unfold fuji_with_dr. split; intros (r & Hin & Hk); exists r.
  - apply filter_In in Hin as [Hin _]. now split.
  - split; [|assumption]. apply filter_In. split; [assumption|].
    now rewrite Hk.
Qed.

Lemma identifiers_In (k : N) :
  In k (identifiers pos_df fuji_df)
  <-> In k (map pg_DR_Num ls) \/ In k (map fg_DR_Num rs).
Proof.
  unfold identifiers.
  rewrite in_app_iff, pos_grouped_keys, fuji_grouped_keys, !in_flat_map.
  assert (E : forall (o : option N),
             In k (match o with Some k' => [k'] | None => [] end)
             <-> o = Some k).
  { intros [k'|]; simpl; [|split; [tauto | discriminate]].
    split; [intros [->|[]]; reflexivity | intros [= ->]; now left]. }
  split; (intros [(r & Hin & H)|(r & Hin & H)];
          [left | right]; exists r; (split; [assumption | now apply E])).
Qed.

Lemma merged_NoDup : NoDup (map m_DR_Num mg).
Proof.
  apply merge_outer_NoDup;
    [apply pos_grouped_NoDup | apply fuji_grouped_NoDup].
Qed.

Lemma merged_keys (k : N) :
  In k (map m_DR_Num mg) <-> In k (identifiers pos_df fuji_df).
Proof.
  rewrite identifiers_In. apply merge_outer_keys, fuji_grouped_NoDup.
Qed.

(** One row a distinct identifier. *)
Lemma merged_length :
  length mg = length (nodup N.eq_dec (identifiers pos_df fuji_df)).
Proof.
  rewrite <- (length_map m_DR_Num). apply Permutation_length.
  apply NoDup_Permutation; [apply merged_NoDup | apply NoDup_nodup|].
  intros k. now rewrite nodup_In, merged_keys.
Qed.

Lemma indicator_split_perm (l : list merged_row) :
  Permutation
    (filter (fun r => indicator_eqb (m_merge r) left_only) l
     ++ filter (fun r => indicator_eqb (m_merge r) both) l
     ++ filter (fun r => indicator_eqb (m_merge r) right_only) l)
    l.
Proof.
  induction l as [|m l IH]; simpl; [reflexivity|].
  destruct (m_merge m); simpl.
  - now constructor.
  - rewrite app_assoc, <- Permutation_middle, <- app_assoc.
    now constructor.
  - rewrite <- Permutation_middle. now constructor.
Qed.

(** The four classes together are the rows of [merged]. *)
Lemma classes_perm :
  Permutation
    (unprinted to_numeric pos_df fuji_df
     ++ matched_exact to_numeric pos_df fuji_df
     ++ mismatches to_numeric pos_df fuji_df
     ++ printer_only to_numeric pos_df fuji_df)
    mg.
Proof.
  etransitivity; [|apply (indicator_split_perm mg)].
  unfold unprinted, matched_exact, mismatches, printer_only, matched.
  apply Permutation_app_head. rewrite app_assoc.
  apply Permutation_app_tail.
  rewrite Permutation_app_comm. apply filter_split_perm.
Qed.

Lemma merged_row_origin (m : merged_row) :
  In m mg ->
  match m_merge m with
  | left_only =>
      exists a, In a ls /\ m = row_left a
                /\ ~ In (pg_DR_Num a) (map fg_DR_Num rs)
  | both =>
      exists a b, In a ls /\ In b rs
                  /\ fg_DR_Num b = pg_DR_Num a /\ m = row_both a b
  | right_only =>
      exists b, In b rs /\ m = row_right b
                /\ ~ In (fg_DR_Num b) (map pg_DR_Num ls)
  end.
Proof. apply merge_outer_rows. Qed.

Lemma indicator_eqb_eq (x y : indicator) :
  indicator_eqb x y = true <-> x = y.
Proof. destruct x, y; simpl; split; congruence. Qed.

End MatcherFacts.

(** C4.  The matcher partitions its inputs.  Every identifier of an
    aggregated POS group or of an aggregated printer group has exactly one
    row among unprinted, matched with [Diff] zero, mismatched and
    printer-only taken together; a row is unprinted when only the POS side
    has its identifier, printer-only when only the printer log has it, and
    otherwise matched or mismatched as [Diff], the printed total less the
    expected total, is zero or not; and the four sizes add up to the
    number of distinct identifiers of the two normalized inputs. *)
Theorem matcher_partitions_identifiers :
  forall (to_numeric : string -> option Z) (pos_df : list pos_row)
         (fuji_df : list fuji_row),
    let ls := pos_grouped to_numeric pos_df in
    let rs := fuji_grouped to_numeric fuji_df in
    let U := unprinted to_numeric pos_df fuji_df in
    let M0 := matched_exact to_numeric pos_df fuji_df in
    let MM := mismatches to_numeric pos_df fuji_df in
    let PO := printer_only to_numeric pos_df fuji_df in
    (forall k, In k (map pg_DR_Num ls) \/ In k (map fg_DR_Num rs) ->
               length (filter (has_key k) (U ++ M0 ++ MM ++ PO)) = 1%nat)
    /\ (forall m, In m U ->
          exists a, In a ls /\ m = row_left a
                    /\ ~ In (pg_DR_Num a) (map fg_DR_Num rs))
    /\ (forall m, In m M0 ->
          exists a b, In a ls /\ In b rs /\ fg_DR_Num b = pg_DR_Num a
                      /\ m = row_both a b
                      /\ (fg_Printed_Pages b - pg_Expected_Pages a = 0)%Z)
    /\ (forall m, In m MM ->
          exists a b, In a ls /\ In b rs /\ fg_DR_Num b = pg_DR_Num a
                      /\ m = row_both a b
                      /\ (fg_Printed_Pages b - pg_Expected_Pages a <> 0)%Z)
    /\ (forall m, In m PO ->
          exists b, In b rs /\ m = row_right b
                    /\ ~ In (fg_DR_Num b) (map pg_DR_Num ls))
    /\ (length U + length M0 + length MM + length PO
        = length (nodup N.eq_dec (identifiers pos_df fuji_df)))%nat.
Proof.
  intros tn pos_df fuji_df ls rs U M0 MM PO.
  pose proof (classes_perm tn pos_df fuji_df) as Hp. fold U M0 MM PO in Hp.
  assert (Hboth : forall m, In m (matched tn pos_df fuji_df) ->
            exists a b, In a ls /\ In b rs /\ fg_DR_Num b = pg_DR_Num a
                        /\ m = row_both a b).
  { intros m Hin. apply filter_In in Hin as [Hin Hi].
    apply indicator_eqb_eq in Hi.
    apply (merged_row_origin tn pos_df fuji_df) in Hin. now rewrite Hi in Hin. }
  repeat split.
  - intros k Hk.
    rewrite (Permutation_length (filter_perm (has_key k) _ _ Hp)).
    apply filter_key_length; [apply merged_NoDup|].
    apply (proj2 (merged_keys tn pos_df fuji_df k)).
    apply (proj2 (identifiers_In tn pos_df fuji_df k)). exact Hk.
  - intros m Hin. apply filter_In in Hin as [Hin Hi].
    apply indicator_eqb_eq in Hi.
    apply (merged_row_origin tn pos_df fuji_df) in Hin. now rewrite Hi in Hin.
  - intros m Hin. apply filter_In in Hin as [Hin Hd].
    destruct (Hboth m Hin) as (a & b & Ha & Hb & Hk & ->).
    exists a, b. repeat split; try assumption.
    apply negb_true_iff in Hd. unfold Diff_ne0, Diff in Hd. simpl in Hd.
    destruct (fg_Printed_Pages b - pg_Expected_Pages a)%Z;
      [reflexivity | discriminate | discriminate].
  - intros m Hin. apply filter_In in Hin as [Hin Hd].
    destruct (Hboth m Hin) as (a & b & Ha & Hb & Hk & ->).
    exists a, b. repeat split; try assumption.
    unfold Diff_ne0, Diff in Hd. simpl in Hd. intros E.
    now rewrite E in Hd.
  - intros m Hin. apply filter_In in Hin as [Hin Hi].
    apply indicator_eqb_eq in Hi.
    apply (merged_row_origin tn pos_df fuji_df) in Hin. now rewrite Hi in Hin.
  - rewrite <- (merged_length tn), <- (Permutation_length Hp).
    rewrite !length_app. lia.
Qed.

(** ** Claims on the POS normalizer *)

Example calc_pages_mixed_case :
  calc_pages to_numeric_int
    {| Invoice_No := "DR1"; Item_Name := Some "Digital Print 2 sides";
       Sales_Qty := " 1,200 "; Customer_Name := None |}
  = Some 2400%Z.
Proof. reflexivity. Qed.

(** C8.  A POS row reaches the aggregation only if its item name contains
    "digital print" and neither "proof" nor "sticker", letters compared
    without regard to case: these are the rows of [pos_print]; the total
    of every aggregated group is the sum over the rows of [pos_print]
    that have its identifier; and a row that fails the test, in
    particular one with "proof" or "sticker" in its name, can be taken
    out of the POS table without a change to any group. *)
Theorem aggregation_sees_retained_rows_only :
  forall (to_numeric : string -> option Z) (pos_df : list pos_row),
    (forall r, In r (pos_print pos_df) <-> In r pos_df /\ retained r)
    /\ (forall g, In g (pos_grouped to_numeric pos_df) ->
          pg_Expected_Pages g
          = sum_Z (map (fun r => fillna0 (calc_pages to_numeric r))
                       (rows_of N.eqb pos_DR_Num (pg_DR_Num g)
                                (pos_print pos_df))))
    /\ (forall (l1 l2 : list pos_row) (r : pos_row),
          pos_df = (l1 ++ r :: l2)%list -> ~ retained r ->
          pos_grouped to_numeric pos_df = pos_grouped to_numeric (l1 ++ l2))
    /\ (forall r item,
          Item_Name r = Some item ->
          occurs_nocase "proof" item \/ occurs_nocase "sticker" item ->
          ~ retained r /\ ~ In r (pos_print pos_df)).
Proof.
  intros tn pos_df. split; [|split; [|split]].
  - apply pos_print_In.
  - intros g Hin.
    destruct (pos_grouped_row tn pos_df g Hin) as (r & t & E & _ & Hs).
    now rewrite E.
  - intros l1 l2 r -> Hr. unfold pos_grouped.
    now rewrite (pos_print_drop l1 l2 r Hr).
  - intros r item Hi Ho.
    assert (Hr : ~ retained r).
    { intros (item' & E & _ & Hp & Hs).
      rewrite Hi in E. injection E as <-. tauto. }
    split; [exact Hr|]. rewrite pos_print_In. tauto.
Qed.

(** C2, at the failing input.  A quantity that does not read as a number
    is not replaced by zero: [NaN] is true in [NaN or 0], so the row keeps
    [NaN] as its expected pages, doubled or not, and only the sum of the
    group, which skips [NaN], counts it for nothing.  A page count of the
    printer log that does not read as a number, or is missing, is
    replaced by zero. *)
Theorem unparsable_quantity_stays_nan :
  (forall (to_numeric : string -> option Z) (row : pos_row),
      to_numeric (strip (remove_commas (Sales_Qty row))) = None ->
      calc_pages to_numeric row = None)
  /\ calc_pages to_numeric_int
       {| Invoice_No := "DR5"; Item_Name := Some "DIGITAL PRINT 1 SIDE";
          Sales_Qty := "abc"; Customer_Name := None |}
     = None
  /\ calc_pages to_numeric_int
       {| Invoice_No := "DR5"; Item_Name := Some "DIGITAL PRINT 2 SIDES";
          Sales_Qty := "abc"; Customer_Name := None |}
     = None
  /\ map pg_Expected_Pages
       (pos_grouped to_numeric_int
          [{| Invoice_No := "DR5"; Item_Name := Some "DIGITAL PRINT 1 SIDE";
              Sales_Qty := "abc"; Customer_Name := None |}])
     = [0%Z]
  /\ (forall (to_numeric : string -> option Z) (r : fuji_row),
         to_numeric_cell to_numeric (Printed_Pages r) = None ->
         fuji_Printed_Pages to_numeric r = 0%Z).
Proof.
  split; [|split; [|split; [|split]]]; try reflexivity.
  - intros tn row H. unfold calc_pages. rewrite H. simpl.
    now destruct (str_in _ _).
  - intros tn r H. unfold fuji_Printed_Pages. now rewrite H.
Qed.

(** ** Claims on the reconciliation *)

(** C3, as the code has it.  A POS row whose invoice yields no identifier
    is dropped by the aggregation, which leaves out the rows with a null
    key: taking all such rows out of the POS table changes no aggregated
    group, no row of the join and no unprinted row; every aggregated
    group, and every unprinted row, has the identifier of a retained POS
    row. *)
Theorem rows_without_identifier_are_dropped :
  forall (to_numeric : string -> option Z) (pos_df : list pos_row)
         (fuji_df : list fuji_row),
    pos_grouped to_numeric (with_DR_Num pos_df) = pos_grouped to_numeric pos_df
    /\ merged to_numeric (with_DR_Num pos_df) fuji_df
       = merged to_numeric pos_df fuji_df
    /\ unprinted to_numeric (with_DR_Num pos_df) fuji_df
       = unprinted to_numeric pos_df fuji_df
    /\ (forall g, In g (pos_grouped to_numeric pos_df) ->
          exists r, In r (pos_print pos_df)
                    /\ pos_DR_Num r = Some (pg_DR_Num g))
    /\ (forall m, In m (unprinted to_numeric pos_df fuji_df) ->
          exists r, In r (pos_print pos_df)
                    /\ pos_DR_Num r = Some (m_DR_Num m)).
Proof.
  intros tn pos_df fuji_df.
  pose proof (pos_grouped_with_DR_Num tn pos_df) as E.
  split; [exact E|]. split; [unfold merged; now rewrite E|].
  split; [unfold unprinted, merged; now rewrite E|]. split.
  - intros g Hin. apply (pos_grouped_keys tn). now apply in_map.
  - intros m Hin. apply filter_In in Hin as [Hin Hi].
    apply indicator_eqb_eq in Hi.
    apply (merged_row_origin tn pos_df fuji_df) in Hin. rewrite Hi in Hin.
    destruct Hin as (a & Ha & -> & _). simpl.
    apply (pos_grouped_keys tn). now apply in_map.
Qed.

(** C3, as stated, fails: a retained POS row with the invoice "INV-999"
    is in no aggregated group and not in the unprinted set. *)
Lemma row_without_identifier_not_unprinted :
  let row := {| Invoice_No := "INV-999";
                Item_Name := Some "DIGITAL PRINT 1 SIDE";
                Sales_Qty := "5";
                Customer_Name := Some "Walk-in" |} in
  pos_print [row] = [row]
  /\ pos_DR_Num row = None
  /\ pos_grouped to_numeric_int [row] = []
  /\ unprinted to_numeric_int [row] [] = [].
Proof. repeat split. Qed.

(** C7, as the code has it.  The threshold is the constant 10 of line
    136; the engine reads no option.  The rows offered for the proof are
    exactly the mismatched rows whose [Diff] exceeds 10 in absolute
    value. *)
Theorem proof_threshold_is_ten :
  forall (to_numeric : string -> option Z) (pos_df : list pos_row)
         (fuji_df : list fuji_row),
    large_mismatches to_numeric pos_df fuji_df
    = filter (Diff_exceeds 10) (mismatches to_numeric pos_df fuji_df)
    /\ (forall r,
          In r (large_mismatches to_numeric pos_df fuji_df)
          <-> In r (mismatches to_numeric pos_df fuji_df)
              /\ exists d, Diff r = Some d /\ (10 < Z.abs d)%Z).
Proof.
  intros tn pos_df fuji_df. split; [reflexivity|].
  intros r. unfold large_mismatches. rewrite filter_In. unfold Diff_large.
  split; intros [Hin H]; (split; [exact Hin|]).
  - destruct (Diff r) as [d|]; [|discriminate].
    exists d. split; [reflexivity | now apply Z.ltb_lt].
  - destruct H as (d & -> & H). now apply Z.ltb_lt.
Qed.

(** C7, as stated, fails: with a threshold of 5 the mismatch of 8 pages
    below would be offered for the proof; the engine offers nothing. *)
Lemma threshold_five_not_honoured :
  let pos_df := [{| Invoice_No := "DR100";
                    Item_Name := Some "DIGITAL PRINT 1 SIDE";
                    Sales_Qty := "5";
                    Customer_Name := Some "Acme" |}] in
  let fuji_df := [{| Job_Name := Some "Job DR100";
                     Printed_Pages := Num 13;
                     Owner := Some "Al";
                     Recorded_Date_Time := "2024-01-01 10:00" |}] in
  map Diff (mismatches to_numeric_int pos_df fuji_df) = [Some 8%Z]
  /\ map Diff (filter (Diff_exceeds 5) (mismatches to_numeric_int pos_df fuji_df))
     = [Some 8%Z]
  /\ large_mismatches to_numeric_int pos_df fuji_df = []
  /\ proof_section to_numeric_int str_int pos_df fuji_df 0 = no_section.
Proof. repeat split. Qed.

(** ** The proof section *)

Section DictFacts.

Lemma dict_get_set_same (k : string) (v : N) (d : list (string * N)) :
  dict_get k (dict_set k v d) = Some v.
Proof.
  induction d as [|[k' v'] d IH]; simpl.
  - now rewrite String.eqb_refl.
  - destruct (String.eqb k k') eqn:E; simpl; now rewrite E.
Qed.

Lemma dict_get_set_other (k k0 : string) (v : N) (d : list (string * N)) :
  k <> k0 -> dict_get k (dict_set k0 v d) = dict_get k d.
Proof.
  intros Hne. apply String.eqb_neq in Hne.
  induction d as [|[k' v'] d IH]; simpl.
  - now rewrite Hne.
  - destruct (String.eqb k0 k') eqn:E; simpl.
    + apply String.eqb_eq in E. subst k'. now rewrite Hne.
    + now rewrite IH.
Qed.

Lemma dict_get_fold (k : string) (pairs d : list (string * N)) :
  In k (map fst pairs) \/ dict_get k d <> None ->
  exists v,
    dict_get k (fold_left (fun d kv => dict_set (fst kv) (snd kv) d) pairs d)
    = Some v
    /\ (In (k, v) pairs \/ dict_get k d = Some v).
Proof.
  revert d. induction pairs as [|[k0 v0] t IH]; intros d H; simpl.
  - destruct H as [[]|H]. destruct (dict_get k d) as [v|]; [|congruence].
    exists v. now split; [|right].
  - destruct (String.eqb_spec k k0) as [->|Hne].
    + destruct (IH (dict_set k0 v0 d)) as (v & Hv & Hor).
      { right. now rewrite dict_get_set_same. }
      exists v. split; [exact Hv|]. left.
      destruct Hor as [Hin|Hd]; [now right|].
      rewrite dict_get_set_same in Hd. injection Hd as <-. now left.
    + destruct (IH (dict_set k0 v0 d)) as (v & Hv & Hor).
      { rewrite dict_get_set_other by assumption. simpl in H.
        destruct H as [[H|H]|H]; [congruence | now left | now right]. }
      exists v. split; [exact Hv|].
      rewrite dict_get_set_other in Hor by assumption.
      destruct Hor as [Hin|Hd]; [left; now right | now right].
Qed.

(** A key of the pairs has a value in the dictionary, that of one of
    its pairs. *)
Lemma dict_get_dict (k : string) (pairs : list (string * N)) :
  In k (map fst pairs) ->
  exists v, dict_get k (dict pairs) = Some v /\ In (k, v) pairs.
Proof.
  intros H. destruct (dict_get_fold k pairs [] (or_introl H)) as (v & Hv & Hor).
  exists v. split; [exact Hv|]. now destruct Hor as [Hin|Hd].
Qed.

Lemma combine_map {A B C : Type} (f : A -> B) (g : A -> C) (l : list A) :
  combine (map f l) (map g l) = map (fun x => (f x, g x)) l.
Proof. induction l as [|x l IH]; simpl; [reflexivity | now rewrite IH]. Qed.

End DictFacts.

Section ProofFacts.

Variable str_num : Z -> string.

(** The dictionary of line 142 sends a label to the DR number of a row
    that has this label. *)
Lemma dr_map_label (large : list merged_row) (lbl : string) :
  In lbl (labels str_num large) ->
  exists r,
    In r large /\ label str_num r = lbl
    /\ dict_get lbl (dr_map str_num large) = Some (m_DR_Num r).
Proof.
  intros Hl.
  assert (Hk : In lbl (map fst (combine (labels str_num large)
                                        (map m_DR_Num large)))).
  { unfold labels in *. now rewrite combine_map, map_map. }
  apply dict_get_dict in Hk as (v & Hv & Hin).
  unfold labels in Hin. rewrite combine_map in Hin.
  apply in_map_iff in Hin as (r & [= <- <-] & Hr).
  now exists r.
Qed.

End ProofFacts.

Example proof_hidden_for_DR0 :
  proof_section to_numeric_int str_int
    [{| Invoice_No := "DR0"; Item_Name := Some "DIGITAL PRINT 1 SIDE";
        Sales_Qty := "5"; Customer_Name := Some "Acme" |}]
    [{| Job_Name := Some "DR0"; Printed_Pages := Num 20; Owner := Some "Al";
        Recorded_Date_Time := "2024-01-01 10:00" |}]
    0
  = no_table 0.
Proof. reflexivity. Qed.

(** C5.  The invoice "DR100" sells 5 pages of "DIGITAL PRINT 1 SIDE" and
    the job "Job DR100" is in the printer log.  With 5 printed pages the
    identifier is matched with [Diff] 0; with 8 it is mismatched with
    [Diff] 3 and no proof is offered; with 20 it is mismatched with
    [Diff] 15, the proof is offered, and the proof of DR100 is that
    printer row. *)
Theorem end_to_end_DR100 :
  forall (str_num : Z -> string) (cust owner : option string) (time : string),
    let pos_df := [{| Invoice_No := "DR100";
                      Item_Name := Some "DIGITAL PRINT 1 SIDE";
                      Sales_Qty := "5"; Customer_Name := cust |}] in
    let fuji_df pages := [{| Job_Name := Some "Job DR100";
                             Printed_Pages := Num pages; Owner := owner;
                             Recorded_Date_Time := time |}] in
    let row pages := {| m_DR_Num := 100; m_Invoice_No := Some "DR100";
                        m_Customer_Name := cust;
                        m_Expected_Pages := Some 5%Z;
                        m_Printed_Pages := Some pages; m_merge := both |} in
    (matched_exact to_numeric_int pos_df (fuji_df 5%Z) = [row 5%Z]
     /\ Diff (row 5%Z) = Some 0%Z
     /\ mismatches to_numeric_int pos_df (fuji_df 5%Z) = []
     /\ unprinted to_numeric_int pos_df (fuji_df 5%Z) = [])
    /\ (mismatches to_numeric_int pos_df (fuji_df 8%Z) = [row 8%Z]
        /\ Diff (row 8%Z) = Some 3%Z
        /\ large_mismatches to_numeric_int pos_df (fuji_df 8%Z) = []
        /\ forall choice,
             proof_section to_numeric_int str_num pos_df (fuji_df 8%Z) choice
             = no_section)
    /\ (mismatches to_numeric_int pos_df (fuji_df 20%Z) = [row 20%Z]
        /\ Diff (row 20%Z) = Some 15%Z
        /\ large_mismatches to_numeric_int pos_df (fuji_df 20%Z) = [row 20%Z]
        /\ proof to_numeric_int (fuji_df 20%Z) 100
           = [{| pr_Recorded_Date_Time := time;
                 pr_Job_Name := Some "Job DR100";
                 pr_Printed_Pages := 20; pr_Owner := owner |}]
        /\ proof_section to_numeric_int str_num pos_df (fuji_df 20%Z) 0
           = table 100 (proof to_numeric_int (fuji_df 20%Z) 100)).
Proof.
  intros str_num cust owner time pos_df fuji_df row.
  split; [|split].
  - repeat split.
  - repeat split.
  - assert (E : large_mismatches to_numeric_int pos_df (fuji_df 20%Z)
                = [row 20%Z]) by reflexivity.
    repeat split.
    unfold proof_section. rewrite E. cbn [labels map nth_error].
    destruct (dr_map_label str_num [row 20%Z] (label str_num (row 20%Z)))
      as (r & Hr & _ & Hd); [now left|].
    destruct Hr as [<-|[]]. now rewrite Hd.
Qed.

(** ** The anonymous summary *)

Section OrderFacts.

Lemma string_leb_refl (a : string) : String.leb a a = true.
Proof. destruct (String.leb_total a a); assumption. Qed.

Lemma string_compare_trans_le (a b c : string) :
  String.compare a b <> Gt -> String.compare b c <> Gt ->
  String.compare a c <> Gt.
Proof.
  revert b c. induction a as [|x a IH]; intros [|y b] [|z c]; simpl;
    try congruence.
  unfold Ascii.compare.
  destruct (N.compare_spec (N_of_ascii x) (N_of_ascii y)) as [E1|L1|G1];
    destruct (N.compare_spec (N_of_ascii y) (N_of_ascii z)) as [E2|L2|G2];
    try congruence; intros H1 H2.
  - rewrite E1, E2, N.compare_refl in *. now apply IH with (b := b).
  - rewrite E1. now rewrite (proj2 (N.compare_lt_iff _ _) L2).
  - rewrite <- E2. now rewrite (proj2 (N.compare_lt_iff _ _) L1).
  - rewrite (proj2 (N.compare_lt_iff _ _) (N.lt_trans _ _ _ L1 L2)).
    discriminate.
Qed.

Lemma string_leb_trans (a b c : string) :
  String.leb a b = true -> String.leb b c = true -> String.leb a c = true.
Proof.
  unfold String.leb. intros H1 H2.
  pose proof (string_compare_trans_le a b c) as H.
  destruct (String.compare a b); destruct (String.compare b c);
    try discriminate;
    (destruct (String.compare a c); [reflexivity | reflexivity |];
     exfalso; apply H; congruence).
Qed.

(** The running maximum is one of the texts and no text exceeds it. *)
Lemma fold_str_max (l : list string) (x : string) :
  In (fold_left str_max l x) (x :: l)
  /\ forall y, In y (x :: l) -> String.leb y (fold_left str_max l x) = true.
Proof.
  revert x. induction l as [|z l IH]; intros x; simpl.
  - split; [now left|]. intros y [<-|[]]. apply string_leb_refl.
  - destruct (IH (str_max x z)) as (Hin & Hub). split.
    + destruct Hin as [<-|Hin]; [|now right; right].
      unfold str_max. destruct (String.leb x z); [right|]; now left.
    + assert (Hx : String.leb x (str_max x z) = true).
      { unfold str_max. destruct (String.leb x z) eqn:E;
          [exact E | apply string_leb_refl]. }
      assert (Hz : String.leb z (str_max x z) = true).
      { unfold str_max. destruct (String.leb x z) eqn:E;
          [apply string_leb_refl|].
        destruct (String.leb_total x z); congruence. }
      intros y [<-|[<-|Hy]].
      * apply string_leb_trans with (b := str_max x z);
          [exact Hx | apply Hub; now left].
      * apply string_leb_trans with (b := str_max x z);
          [exact Hz | apply Hub; now left].
      * apply Hub. now right.
Qed.

Lemma pair_eqb_eq (x y : string * string) : pair_eqb x y = true <-> x = y.
Proof.
  destruct x as [a b], y as [c d]. unfold pair_eqb. simpl.
  rewrite andb_true_iff, !String.eqb_eq. split.
  - now intros [-> ->].
  - now intros [= -> ->].
Qed.

Lemma string_compare_refl (a : string) : String.compare a a = Eq.
Proof.
  pose proof (String.compare_antisym a a) as H.
  destruct (String.compare a a); simpl in H; congruence.
Qed.

Lemma pair_leb_total (x y : string * string) :
  pair_leb x y = true \/ pair_leb y x = true.
Proof.
  destruct x as [a b], y as [c d]. unfold pair_leb. simpl.
  rewrite (String.compare_antisym c a).
  destruct (String.compare a c) eqn:E; simpl; auto.
  apply String.compare_eq_iff in E. subst c. apply String.leb_total.
Qed.

Lemma string_compare_trans_lt (a b c : string) :
  String.compare a b = Lt -> String.compare b c = Lt ->
  String.compare a c = Lt.
Proof.
  intros H1 H2.
  destruct (String.compare a c) eqn:E; [|reflexivity|].
  - apply String.compare_eq_iff in E. subst c.
    rewrite String.compare_antisym, H1 in H2. discriminate.
  - exfalso. apply (string_compare_trans_le a b c); congruence.
Qed.

Lemma pair_leb_trans (x y z : string * string) :
  pair_leb x y = true -> pair_leb y z = true -> pair_leb x z = true.
Proof.
  destruct x as [a b], y as [c d], z as [e f]. unfold pair_leb. simpl.
  destruct (String.compare a c) eqn:E1; [| |discriminate];
    destruct (String.compare c e) eqn:E2; try discriminate; intros H1 H2.
  - apply String.compare_eq_iff in E1, E2. subst c e.
    rewrite string_compare_refl. now apply string_leb_trans with (b := d).
  - apply String.compare_eq_iff in E1. subst c. now rewrite E2.
  - apply String.compare_eq_iff in E2. subst e. now rewrite E1.
  - now rewrite (string_compare_trans_lt a c e).
Qed.

End OrderFacts.

Section AnonFacts.

Variable to_numeric : string -> option Z.

Local Abbreviation pages := (fuji_Printed_Pages to_numeric).
Local Abbreviation groups := (anonymous_groups to_numeric).

Lemma anon_fold_pair (t : list fuji_row) (a : anon_row) :
  anon_pair (fold_left (anon_step to_numeric) t a) = anon_pair a.
Proof.
  revert a. induction t as [|r t IH]; intros a; simpl;
    [|rewrite IH]; reflexivity.
Qed.

Lemma anon_fold_pages (t : list fuji_row) (a : anon_row) :
  an_Printed_Pages (fold_left (anon_step to_numeric) t a)
  = (an_Printed_Pages a + sum_Z (map pages t))%Z.
Proof.
  revert a. induction t as [|r t IH]; intros a; simpl; [lia|].
  rewrite IH. simpl. lia.
Qed.

Lemma anon_fold_time (t : list fuji_row) (a : anon_row) :
  an_Recorded_Date_Time (fold_left (anon_step to_numeric) t a)
  = fold_left str_max (map Recorded_Date_Time t) (an_Recorded_Date_Time a).
Proof.
  revert a. induction t as [|r t IH]; intros a; simpl; [reflexivity|].
  now rewrite IH.
Qed.

Lemma anon_init_pair (k : string * string) (r : fuji_row) :
  anon_pair (anon_init to_numeric k r) = k.
Proof. now destruct k. Qed.

Lemma anon_step_pair (a : anon_row) (r : fuji_row) :
  anon_pair (anon_step to_numeric a r) = anon_pair a.
Proof. reflexivity. Qed.

Lemma anonymous_groups_NoDup (fuji_df : list fuji_row) :
  NoDup (map anon_pair (groups fuji_df)).
Proof.
  apply groupby_NoDup;
    [apply pair_eqb_eq | apply anon_init_pair | apply anon_step_pair].
Qed.

Lemma anonymous_groups_keys (fuji_df : list fuji_row) (j o : string) :
  In (j, o) (map anon_pair (groups fuji_df))
  <-> exists r, In r fuji_df /\ fuji_DR_Num r = None
                /\ Job_Name r = Some j /\ Owner r = Some o.
Proof.
  unfold anonymous_groups.
  rewrite (groupby_keys pair_eqb pair_leb anon_key (anon_init to_numeric)
             (anon_step to_numeric) pair_eqb_eq anon_pair
             anon_init_pair anon_step_pair).
  unfold anonymous_raw, anon_key.
  split; intros (r & Hin & H); exists r.
  - apply filter_In in Hin as [Hin Hn].
    destruct (fuji_DR_Num r); [discriminate|].
    destruct (Job_Name r), (Owner r); try discriminate.
    injection H as -> ->. now repeat split.
  - destruct H as (Hn & -> & ->). split; [|reflexivity].
    apply filter_In. split; [assumption | now rewrite Hn].
Qed.

(** The groups reach the sort in ascending order of their pair. *)
Lemma anonymous_groups_ascending (fuji_df : list fuji_row) :
  StronglySorted (fun a b => pair_leb (anon_pair a) (anon_pair b) = true)
                 (groups fuji_df).
Proof.
  apply groupby_sorted;
    [apply anon_init_pair | apply anon_step_pair
    | apply pair_leb_total | apply pair_leb_trans].
Qed.

(** A row of the grouped table sums the pages of the rows of its pair
    and shows the largest of their timestamps. *)
Lemma anonymous_groups_row (fuji_df : list fuji_row) (a : anon_row) :
  In a (groups fuji_df) ->
  let rows := rows_of pair_eqb anon_key (anon_pair a)
                      (anonymous_raw fuji_df) in
  rows <> []
  /\ an_Printed_Pages a = sum_Z (map pages rows)
  /\ In (an_Recorded_Date_Time a) (map Recorded_Date_Time rows)
  /\ (forall r, In r rows ->
                String.leb (Recorded_Date_Time r) (an_Recorded_Date_Time a)
                = true).
Proof.
  intros Hin rows.
  apply (groupby_row pair_eqb pair_leb anon_key (anon_init to_numeric)
           (anon_step to_numeric) pair_eqb_eq anon_pair
           anon_init_pair anon_step_pair) in Hin as (r & t & E & Ha).
  fold rows in E. rewrite E. split; [discriminate|].
  destruct (fold_str_max (map Recorded_Date_Time t) (Recorded_Date_Time r))
    as (Hmax & Hub).
  assert (Et : an_Recorded_Date_Time a
               = fold_left str_max (map Recorded_Date_Time t)
                           (Recorded_Date_Time r)).
  { rewrite Ha at 1. now rewrite anon_fold_time. }
  split; [|split].
  - rewrite Ha at 1. rewrite anon_fold_pages. reflexivity.
  - rewrite Et. exact Hmax.
  - intros r' Hr'. rewrite Et. apply Hub.
    change (In (Recorded_Date_Time r') (map Recorded_Date_Time (r :: t))).
    now apply in_map.
Qed.

End AnonFacts.

Lemma Z_geb_sort_descending (l : list anon_row) :
  descending
    (sort_by (fun x y => (an_Printed_Pages y <=? an_Printed_Pages x)%Z) l).
Proof.
  unfold descending.
  assert (H := sort_by_sorted
                 (fun x y => (an_Printed_Pages y <=? an_Printed_Pages x)%Z)).
  eapply StronglySorted_ind with
    (P := fun l => StronglySorted
                     (fun a b => (an_Printed_Pages b <= an_Printed_Pages a)%Z) l);
    [constructor | | apply H].
  - intros a l' _ IH Hf. constructor; [exact IH|].
    eapply Forall_impl; [|exact Hf]. intros b Hb. now apply Z.leb_le.
  - intros x y. rewrite !Z.leb_le. lia.
  - intros x y z. rewrite !Z.leb_le. lia.
Qed.

Lemma sort_values_stable_ok : sorts_descending sort_values_stable.
Proof.
  intros l. split; [apply sort_by_perm | apply Z_geb_sort_descending].
Qed.

Lemma sort_values_reversing_ok : sorts_descending sort_values_reversing.
Proof.
  intros l. unfold sort_values_reversing. split.
  - rewrite sort_by_perm. symmetry. apply Permutation_rev.
  - apply Z_geb_sort_descending.
Qed.

Example anonymous_summary_sample :
  map (fun a => (an_Job_Name a, an_Printed_Pages a))
      (anonymous_summary to_numeric_int sort_values_stable
         [{| Job_Name := Some "Poster"; Printed_Pages := Txt "5";
             Owner := Some "Alice"; Recorded_Date_Time := "09:00" |};
          {| Job_Name := Some "Banner"; Printed_Pages := Num 5;
             Owner := Some "Alice"; Recorded_Date_Time := "09:30" |};
          {| Job_Name := Some "Banner"; Printed_Pages := Txt "n/a";
             Owner := Some "Alice"; Recorded_Date_Time := "09:10" |};
          {| Job_Name := Some "DR12 flyer"; Printed_Pages := Num 50;
             Owner := Some "Bob"; Recorded_Date_Time := "09:40" |};
          {| Job_Name := Some "Menu"; Printed_Pages := Num 12;
             Owner := Some "Bob"; Recorded_Date_Time := "08:00" |}])
  = [("Menu", 12%Z); ("Banner", 5%Z); ("Poster", 5%Z)].
Proof. reflexivity. Qed.

(** C6, as the code has it.  Whatever order the sort gives to rows with
    equal pages, the anonymous summary has one row per (job name, owner)
    pair among the printer rows without an identifier; the row carries
    the sum of the printed pages and the largest timestamp of the rows of
    its pair; and the summary is in descending order of summed pages.
    Two rows "Banner A" of "Alice" with 5 and 7 pages give the one row
    Banner A / Alice / 12 / the later of the two timestamps. *)
Theorem anonymous_summary_groups_and_sorts :
  forall (to_numeric : string -> option Z)
         (sort : list anon_row -> list anon_row),
    sorts_descending sort ->
    forall fuji_df : list fuji_row,
      let summary := anonymous_summary to_numeric sort fuji_df in
      NoDup (map anon_pair summary)
      /\ (forall j o,
            In (j, o) (map anon_pair summary)
            <-> exists r, In r fuji_df /\ fuji_DR_Num r = None
                          /\ Job_Name r = Some j /\ Owner r = Some o)
      /\ (forall a, In a summary ->
            let rows := rows_of pair_eqb anon_key (anon_pair a)
                                (anonymous_raw fuji_df) in
            rows <> []
            /\ an_Printed_Pages a
               = sum_Z (map (fuji_Printed_Pages to_numeric) rows)
            /\ In (an_Recorded_Date_Time a) (map Recorded_Date_Time rows)
            /\ (forall r, In r rows ->
                  String.leb (Recorded_Date_Time r) (an_Recorded_Date_Time a)
                  = true))
      /\ descending summary
      /\ (forall t1 t2,
            anonymous_summary to_numeric sort
              [{| Job_Name := Some "Banner A"; Printed_Pages := Num 5;
                  Owner := Some "Alice"; Recorded_Date_Time := t1 |};
               {| Job_Name := Some "Banner A"; Printed_Pages := Num 7;
                  Owner := Some "Alice"; Recorded_Date_Time := t2 |}]
            = [{| an_Job_Name := "Banner A"; an_Artist_Name := "Alice";
                  an_Printed_Pages := 12;
                  an_Recorded_Date_Time := str_max t1 t2 |}]).
Proof.
  intros tn sort Hsort fuji_df summary.
  destruct (Hsort (anonymous_groups tn fuji_df)) as (Hp & Hd).
  fold (anonymous_summary tn sort fuji_df) in Hp, Hd. fold summary in Hp, Hd.
  split; [|split; [|split; [|split]]].
  - eapply Permutation_NoDup;
      [symmetry; apply Permutation_map, Hp | apply anonymous_groups_NoDup].
  - intros j o. rewrite <- anonymous_groups_keys with (to_numeric := tn).
    split; apply Permutation_in;
      [apply Permutation_map, Hp | symmetry; apply Permutation_map, Hp].
  - intros a Hin. apply anonymous_groups_row.
    exact (Permutation_in _ Hp Hin).
  - exact Hd.
  - intros t1 t2. unfold anonymous_summary.
    match goal with |- sort ?g = _ =>
      destruct (Hsort g) as (Hp' & _); revert Hp' end.
    change (anonymous_groups tn _)
      with [{| an_Job_Name := "Banner A"; an_Artist_Name := "Alice";
               an_Printed_Pages := 12;
               an_Recorded_Date_Time := str_max t1 t2 |}].
    intros Hp'. symmetry in Hp'. now apply Permutation_length_1_inv in Hp'.
Qed.

(** C6 with the stable sort as [sort_values]. *)
Lemma anonymous_summary_witness :
  sorts_descending sort_values_stable
  /\ let fuji_df :=
       [{| Job_Name := Some "Banner A"; Printed_Pages := Num 5;
           Owner := Some "Alice"; Recorded_Date_Time := "2024-01-01 10:00" |};
        {| Job_Name := Some "Banner A"; Printed_Pages := Num 7;
           Owner := Some "Alice"; Recorded_Date_Time := "2024-01-01 11:00" |}] in
     descending (anonymous_summary to_numeric_int sort_values_stable fuji_df).
Proof.
  split; [exact sort_values_stable_ok|].
  intros fuji_df.
  exact (proj1 (proj2 (proj2 (proj2
           (anonymous_summary_groups_and_sorts to_numeric_int
              sort_values_stable sort_values_stable_ok fuji_df))))).
Defined.

(** C6, as stated, fails on the order of ties.  The groups reach the sort
    in ascending order of (job name, owner), not in input order, so no
    sort keeps rows with equal pages in the order of the printer log:
    "Poster" and "Banner" with 5 pages each give the same summary
    whichever comes first in the log.  And the promise of [sort_values]
    does not keep equal rows in the order of the grouped table either. *)
Lemma anonymous_ties_not_in_input_order :
  (~ exists sort,
       sorts_descending sort
       /\ forall fuji_df,
            ties_keep (map anon_key (anonymous_raw fuji_df))
                      (anonymous_summary to_numeric_int sort fuji_df))
  /\ (exists sort fuji_df,
        sorts_descending sort
        /\ ~ ties_keep
               (map (fun a => Some (anon_pair a))
                    (anonymous_groups to_numeric_int fuji_df))
               (anonymous_summary to_numeric_int sort fuji_df)).
Proof.
  set (poster := {| Job_Name := Some "Poster"; Printed_Pages := Num 5;
                    Owner := Some "Alice"; Recorded_Date_Time := "09:00" |}).
  set (banner := {| Job_Name := Some "Banner"; Printed_Pages := Num 5;
                    Owner := Some "Alice"; Recorded_Date_Time := "09:30" |}).
  set (gb := {| an_Job_Name := "Banner"; an_Artist_Name := "Alice";
                an_Printed_Pages := 5; an_Recorded_Date_Time := "09:30" |}).
  set (gp := {| an_Job_Name := "Poster"; an_Artist_Name := "Alice";
                an_Printed_Pages := 5; an_Recorded_Date_Time := "09:00" |}).
  split.
  - intros (sort & Hsort & Hties).
    pose proof (Hties [poster; banner]) as H1.
    pose proof (Hties [banner; poster]) as H2.
    unfold anonymous_summary in H1, H2.
    change (anonymous_groups to_numeric_int [poster; banner])
      with [gb; gp] in H1.
    change (anonymous_groups to_numeric_int [banner; poster])
      with [gb; gp] in H2.
    destruct (Hsort [gb; gp]) as (Hp & _). symmetry in Hp.
    apply Permutation_length_2_inv in Hp as [E|E]; rewrite E in H1, H2.
    + specialize (H1 0%nat 1%nat gb gp). vm_compute in H1.
      specialize (H1 (le_n 1) eq_refl eq_refl eq_refl). lia.
    + specialize (H2 0%nat 1%nat gp gb). vm_compute in H2.
      specialize (H2 (le_n 1) eq_refl eq_refl eq_refl). lia.
  - exists sort_values_reversing, [poster; banner].
    split; [exact sort_values_reversing_ok|].
    intros H. specialize (H 0%nat 1%nat gp gb). vm_compute in H.
    specialize (H (le_n 1) eq_refl eq_refl eq_refl). lia.
Qed.

(** * Further properties *)

(** ** The loader *)

Section SplitFacts.

Variable sep : ascii.

Lemma split_on_nonempty (s : string) : split_on sep s <> [].
Proof.
  destruct s as [|c t]; simpl; [discriminate|].
  destruct (Ascii.eqb c sep); [discriminate|].
  destruct (split_on sep t); discriminate.
Qed.

(** The pieces of [a], the separator and [b] are the pieces of [a] and
    then those of [b]. *)
Lemma split_on_app (a b : string) :
  split_on sep (a ++ String sep b)
  = (split_on sep a ++ split_on sep b)%list.
Proof.
  induction a as [|c a IH]; simpl.
  - now rewrite Ascii.eqb_refl.
  - destruct (Ascii.eqb c sep); [now rewrite IH|].
    rewrite IH. pose proof (split_on_nonempty a) as Hne.
    destruct (split_on sep a) as [|w ws]; [congruence | reflexivity].
Qed.

Lemma split_on_whole (s : string) :
  forall_chars (fun c => negb (Ascii.eqb c sep)) s = true ->
  split_on sep s = [s].
Proof.
  induction s as [|c s IH]; simpl; [reflexivity|].
  intros H. apply andb_true_iff in H as [Hc Hs].
  apply negb_true_iff in Hc. now rewrite Hc, (IH Hs).
Qed.

Lemma last_app_nonempty {A : Type} (l1 l2 : list A) (d : A) :
  l2 <> [] -> last (l1 ++ l2) d = last l2 d.
Proof.
  intros Hne. induction l1 as [|x l1 IH]; [reflexivity|].
  simpl. rewrite IH. destruct (l1 ++ l2)%list eqn:E; [|reflexivity].
  apply app_eq_nil in E as [_ E]. congruence.
Qed.

End SplitFacts.

Lemma lower_char_dot (c : ascii) :
  Ascii.eqb (lower_char c) "." = Ascii.eqb c ".".
Proof.
  destruct c as [b0 b1 b2 b3 b4 b5 b6 b7].
  destruct b0, b1, b2, b3, b4, b5, b6, b7; reflexivity.
Qed.

Lemma lower_char_idem (c : ascii) : lower_char (lower_char c) = lower_char c.
Proof.
  destruct c as [b0 b1 b2 b3 b4 b5 b6 b7].
  destruct b0, b1, b2, b3, b4, b5, b6, b7; reflexivity.
Qed.

Lemma lower_idem (s : string) : lower (lower s) = lower s.
Proof.
  induction s as [|c s IH]; simpl; [reflexivity|].
  now rewrite lower_char_idem, IH.
Qed.

Lemma split_on_dot_lower (s : string) :
  split_on "." (lower s) = map lower (split_on "." s).
Proof.
  induction s as [|c s IH]; simpl; [reflexivity|].
  rewrite lower_char_dot. destruct (Ascii.eqb c "."); rewrite IH.
  - reflexivity.
  - destruct (split_on "." s); reflexivity.
Qed.

Lemma last_map_lower (l : list string) :
  last (map lower l) EmptyString = lower (last l EmptyString).
Proof.
  induction l as [|x l IH]; [reflexivity|].
  simpl. destruct l; [reflexivity | exact IH].
Qed.

Lemma file_extension_lower (name : string) :
  file_extension (lower name) = file_extension name.
Proof.
  unfold file_extension.
  now rewrite split_on_dot_lower, last_map_lower, lower_idem.
Qed.

(** X1.  The extension of a file name is what follows its last dot, in
    lower case; a name without a dot is its own extension. *)
Theorem file_extension_after_last_dot :
  forall base ext : string,
    forall_chars not_dot ext = true ->
    file_extension (base ++ "." ++ ext) = lower ext
    /\ file_extension ext = lower ext.
Proof.
  intros base ext H. unfold file_extension.
  pose proof (split_on_whole "." ext H) as E.
  split; [|now rewrite E].
  change (base ++ "." ++ ext)%string with (base ++ String "." ext)%string.
  rewrite split_on_app, last_app_nonempty by apply split_on_nonempty.
  now rewrite E.
Qed.

Lemma file_extension_after_last_dot_witness :
  forall_chars not_dot "CSV" = true
  /\ file_extension ("sales.2024" ++ "." ++ "CSV") = lower "CSV"
  /\ file_extension "CSV" = lower "CSV".
Proof.
  split; [reflexivity|].
  apply (file_extension_after_last_dot "sales.2024" "CSV"). reflexivity.
Defined.

Section LoaderFacts.

Variables content frame : Type.
Variable read_csv : content -> option frame.
Variable read_excel : content -> option frame.
Variable pdf_tables : content -> option (list (option (list pdf_row))).
Variable DataFrame : list pdf_row -> pdf_row -> option frame.

Local Abbreviation load :=
  (load_any_file content frame read_csv read_excel pdf_tables DataFrame).

(** X2.  The loader reads the name of the upload only up to the case of
    its letters: an upload named in upper case is loaded as the same
    upload named in lower case. *)
Theorem load_any_file_ignores_case :
  forall (name : string) (data : content),
    load (Some (lower name, data)) = load (Some (name, data)).
Proof.
  intros name data. unfold load_any_file.
  now rewrite file_extension_lower.
Qed.

Lemma pdf_all_data_skip (skip rest : list (option (list pdf_row))) :
  Forall (fun p => has_table p = false) skip ->
  pdf_all_data (skip ++ rest) = pdf_all_data rest.
Proof.
  induction 1 as [|p skip Hp _ IH]; [reflexivity|].
  simpl. destruct p as [[|r t]|]; try assumption. discriminate.
Qed.

Lemma pdf_all_data_nil (pages : list (option (list pdf_row))) :
  pdf_all_data pages = [] <-> Forall (fun p => has_table p = false) pages.
Proof.
  induction pages as [|p pages IH]; simpl.
  - split; [constructor | reflexivity].
  - destruct p as [[|r t]|]; simpl.
    + rewrite IH. split; [now constructor | now inversion 1].
    + split; [discriminate | inversion 1; discriminate].
    + rewrite IH. split; [now constructor | now inversion 1].
Qed.

(** X3.  A PDF is refused with "no tables found" exactly when no page
    gives a table with a row.  Otherwise the first row of the first such
    table names the columns and every later row, of this page and of the
    pages after it, the first rows of their tables too, is a data row. *)
Theorem load_pdf_first_row_is_header :
  forall (name : string) (data : content)
         (pages : list (option (list pdf_row))),
    file_extension name = "pdf" ->
    pdf_tables data = Some pages ->
    (load (Some (name, data)) = No_tables
     <-> Forall (fun p => has_table p = false) pages)
    /\ (forall skip header rows rest,
          pages = (skip ++ Some (header :: rows) :: rest)%list ->
          Forall (fun p => has_table p = false) skip ->
          load (Some (name, data))
          = or_read_error frame (DataFrame (rows ++ pdf_all_data rest) header)).
Proof.
  intros name data pages Hext Hpdf. unfold load_any_file.
  rewrite Hext, Hpdf. simpl. split.
  - rewrite <- pdf_all_data_nil.
    destruct (pdf_all_data pages) as [|h rows]; [tauto|].
    split; [|discriminate].
    unfold or_read_error. destruct (DataFrame rows h); discriminate.
  - intros skip header rows rest -> Hskip.
    now rewrite (pdf_all_data_skip skip _ Hskip).
Qed.

End LoaderFacts.

Lemma load_pdf_first_row_is_header_witness :
  let header := [Some "Invoice No."; Some "Item Name"] in
  let row1 := [Some "DR1"; Some "DIGITAL PRINT"] in
  let row2 := [Some "DR2"; None] in
  let pages := [None; Some [header; row1]; Some []; Some [header; row2]] in
  let tables (_ : unit) := Some pages in
  let frame_of rows header := Some (header, rows) in
  file_extension "Sales Report.PDF" = "pdf"
  /\ tables tt = Some pages
  /\ load_any_file unit (pdf_row * list pdf_row) (fun _ => None) (fun _ => None)
       tables frame_of (Some ("Sales Report.PDF", tt))
     = Loaded (header, [row1; header; row2]).
Proof.
  intros header row1 row2 pages tables frame_of.
  split; [reflexivity|]. split; [reflexivity|].
  exact (proj2 (load_pdf_first_row_is_header unit (pdf_row * list pdf_row)
                  (fun _ => None) (fun _ => None) tables frame_of
                  "Sales Report.PDF" tt pages eq_refl eq_refl)
               [None] header [row1] [Some []; Some [header; row2]] eq_refl
               (Forall_cons None eq_refl (Forall_nil _))).
Defined.

(** ** The identifier extractor, further *)

Lemma extract_app_stable (gap : bool) (s y : string) (n : N) :
  str_extract_DR gap s = Some n ->
  starts_with is_digit y = false ->
  str_extract_DR gap (s ++ y) = Some n.
Proof.
  intros E Hy.
  apply extract_Some_first in E as (pre & ws & ds & rest & Hat & Hno & ->).
  apply extract_first_Some with (pre := pre) (ws := ws) (rest := (rest ++ y)%string);
    [|exact Hno].
  apply DR_at_app; [exact Hat|].
  destruct Hat as (_ & _ & _ & _ & _ & Hr).
  destruct rest; [exact Hy | exact Hr].
Qed.

(** X4.  A cell that yields a DR number yields the same number when
    text that does not start with a digit is added after it.  (A cell
    that yields none can come to yield one, as "DR" followed by " 5".) *)
Theorem identifier_stable_under_suffix :
  forall (gap : bool) (s y : string) (n : N),
    str_extract_DR gap s = Some n ->
    starts_with is_digit y = false ->
    str_extract_DR gap (s ++ y) = Some n.
Proof.
  intros gap s y n E Hy.
  apply extract_Some_first in E as (pre & ws & ds & rest & Hat & Hno & ->).
  apply extract_first_Some
    with (pre := pre) (ws := ws) (rest := (rest ++ y)%string); [|exact Hno].
  destruct Hat as (-> & Hw & Hg & Hne & Hd & Hr).
  repeat split; try assumption.
  - now rewrite !append_assoc.
  - destruct rest; [exact Hy | exact Hr].
Qed.

Lemma identifier_stable_under_suffix_witness :
  str_extract_DR false "DR15322" = Some 15322
  /\ starts_with is_digit " - reprint" = false
  /\ str_extract_DR false ("DR15322" ++ " - reprint") = Some 15322.
Proof.
  split; [reflexivity|]. split; [reflexivity|].
  apply (identifier_stable_under_suffix false "DR15322" " - reprint" 15322);
    reflexivity.
Defined.

Lemma digits_from_zeros (zs ds : string) (acc : N) :
  forall_chars is_zero zs = true ->
  acc = 0 ->
  digits_from acc (zs ++ ds) = digits_from 0 ds.
Proof.
  revert acc. induction zs as [|z zs IH]; simpl; intros acc Hz ->;
    [reflexivity|].
  apply andb_true_iff in Hz as [Hz Hzs].
  apply Ascii.eqb_eq in Hz. subst z. now apply IH.
Qed.

Lemma zeros_are_digits (zs : string) :
  forall_chars is_zero zs = true -> forall_chars is_digit zs = true.
Proof.
  apply forall_chars_impl. intros c Hc.
  apply Ascii.eqb_eq in Hc. now subst c.
Qed.

(** X5.  Zeros in front of the number do not count: with or without
    them a cell yields the same identifier, so "DR007" and "DR7" name the
    same job. *)
Theorem identifier_ignores_leading_zeros :
  forall (gap : bool) (pre ws zs ds rest : string),
    DR_at gap (pre ++ "DR" ++ ws ++ ds ++ rest) pre ws ds rest ->
    ~ has_DR gap pre ->
    forall_chars is_zero zs = true ->
    str_extract_DR gap (pre ++ "DR" ++ ws ++ (zs ++ ds) ++ rest)
    = str_extract_DR gap (pre ++ "DR" ++ ws ++ ds ++ rest).
Proof.
  intros gap pre ws zs ds rest Hat Hno Hz.
  rewrite (extract_first_Some gap _ pre ws ds rest Hat Hno).
  destruct Hat as (_ & Hw & Hg & Hne & Hd & Hr).
  rewrite (extract_first_Some gap _ pre ws (zs ++ ds) rest).
  - unfold digits_value. now rewrite (digits_from_zeros zs ds 0 Hz eq_refl).
  - repeat split; try assumption.
    + intros E. destruct zs; [now apply Hne | discriminate].
    + now rewrite forall_chars_app, (zeros_are_digits zs Hz), Hd.
  - exact Hno.
Qed.

Lemma identifier_ignores_leading_zeros_witness :
  DR_at true ("Job " ++ "DR" ++ " " ++ "7" ++ " x") "Job " " " "7" " x"
  /\ ~ has_DR true "Job "
  /\ forall_chars is_zero "00" = true
  /\ str_extract_DR true ("Job " ++ "DR" ++ " " ++ ("00" ++ "7") ++ " x")
     = str_extract_DR true ("Job " ++ "DR" ++ " " ++ "7" ++ " x").
Proof.
  assert (Hat : DR_at true ("Job " ++ "DR" ++ " " ++ "7" ++ " x")
                  "Job " " " "7" " x").
  { unfold DR_at. repeat split; discriminate. }
  assert (Hno : ~ has_DR true "Job ").
  { apply extract_None_iff. reflexivity. }
  split; [exact Hat|]. split; [exact Hno|]. split; [reflexivity|].
  exact (identifier_ignores_leading_zeros true "Job " " " "00" "7" " x"
           Hat Hno eq_refl).
Defined.

Lemma lstrip_no_space (t : string) :
  forall_chars not_space t = true -> lstrip t = t.
Proof.
  destruct t as [|c t]; simpl; [reflexivity|].
  intros H. apply andb_true_iff in H as [Hc _].
  apply negb_true_iff in Hc. now rewrite Hc.
Qed.

Lemma match_DR_no_space (s : string) :
  forall_chars not_space s = true -> match_DR true s = match_DR false s.
Proof.
  destruct s as [|c1 [|c2 t]]; try reflexivity. simpl.
  intros H. apply andb_true_iff in H as [_ H].
  apply andb_true_iff in H as [_ H].
  now rewrite (lstrip_no_space t H).
Qed.

(** X6.  The two patterns differ on white space only: a text without
    white space yields the same identifier as an invoice number and as a
    job name. *)
Theorem extractors_agree_without_space :
  forall s : string,
    forall_chars not_space s = true ->
    str_extract_DR true s = str_extract_DR false s.
Proof.
  unfold str_extract_DR. induction s as [|c s IH]; intros H.
  - reflexivity.
  - rewrite !re_search_cons, (match_DR_no_space _ H).
    destruct (match_DR false (String c s)); [reflexivity|].
    simpl in H. apply andb_true_iff in H as [_ H]. now apply IH.
Qed.

Lemma extractors_agree_without_space_witness :
  forall_chars not_space "INV-DR0042/A" = true
  /\ str_extract_DR true "INV-DR0042/A" = str_extract_DR false "INV-DR0042/A".
Proof.
  split; [reflexivity|].
  apply (extractors_agree_without_space "INV-DR0042/A"). reflexivity.
Defined.


(** ** The quantity of a POS row *)

Lemma remove_commas_app (a b : string) :
  remove_commas (a ++ b) = (remove_commas a ++ remove_commas b)%string.
Proof.
  induction a as [|c a IH]; simpl; [reflexivity|].
  destruct (Ascii.eqb c ","); now rewrite IH.
Qed.

Lemma space_not_comma (c : ascii) : is_space c = true -> Ascii.eqb c "," = false.
Proof.
  intros H. destruct (Ascii.eqb_spec c ",") as [->|]; [discriminate | reflexivity].
Qed.

Lemma remove_commas_spaces (ws : string) :
  forall_chars is_space ws = true -> remove_commas ws = ws.
Proof.
  induction ws as [|c ws IH]; simpl; [reflexivity|].
  intros H. apply andb_true_iff in H as [Hc Hw].
  now rewrite (space_not_comma c Hc), IH.
Qed.

Lemma lstrip_spaces_app (ws t : string) :
  forall_chars is_space ws = true -> lstrip (ws ++ t) = lstrip t.
Proof.
  induction ws as [|c ws IH]; simpl; [reflexivity|].
  intros H. apply andb_true_iff in H as [Hc Hw]. now rewrite Hc, IH.
Qed.

Lemma rstrip_spaces (ws : string) :
  forall_chars is_space ws = true -> rstrip ws = EmptyString.
Proof.
  induction ws as [|c ws IH]; simpl; [reflexivity|].
  intros H. apply andb_true_iff in H as [Hc Hw]. now rewrite IH, Hc.
Qed.

Lemma rstrip_app_spaces (t ws : string) :
  forall_chars is_space ws = true -> rstrip (t ++ ws) = rstrip t.
Proof.
  intros H. induction t as [|c t IH]; simpl.
  - now apply rstrip_spaces.
  - now rewrite IH.
Qed.

Lemma lstrip_app_spaces (t ws : string) :
  forall_chars is_space ws = true ->
  exists ws', forall_chars is_space ws' = true
              /\ lstrip (t ++ ws) = (lstrip t ++ ws')%string.
Proof.
  intros H. induction t as [|c t (ws' & Hw' & E)]; simpl.
  - exists EmptyString. split; [reflexivity|].
    now rewrite <- (append_nil_r ws), lstrip_spaces_app.
  - destruct (is_space c); [now exists ws'|].
    exists ws. now split.
Qed.

Lemma strip_padded (ws1 t ws2 : string) :
  forall_chars is_space ws1 = true ->
  forall_chars is_space ws2 = true ->
  strip (ws1 ++ t ++ ws2) = strip t.
Proof.
  intros H1 H2. unfold strip. rewrite (lstrip_spaces_app ws1 _ H1).
  destruct (lstrip_app_spaces t ws2 H2) as (ws' & Hw' & ->).
  now apply rstrip_app_spaces.
Qed.

(** X19.  Commas anywhere in the quantity and white space around it do
    not change the expected pages of a row. *)
Theorem quantity_ignores_commas_and_padding :
  forall (to_numeric : string -> option Z) (inv : string)
         (item cust : option string) (ws1 a b ws2 : string),
    forall_chars is_space ws1 = true ->
    forall_chars is_space ws2 = true ->
    calc_pages to_numeric
      {| Invoice_No := inv; Item_Name := item;
         Sales_Qty := ws1 ++ a ++ "," ++ b ++ ws2; Customer_Name := cust |}
    = calc_pages to_numeric
        {| Invoice_No := inv; Item_Name := item;
           Sales_Qty := a ++ b; Customer_Name := cust |}.
Proof.
  intros tn inv item cust ws1 a b ws2 H1 H2. unfold calc_pages.
  cbn [Sales_Qty Item_Name].
  assert (E : strip (remove_commas (ws1 ++ a ++ "," ++ b ++ ws2))
              = strip (remove_commas (a ++ b))).
  { rewrite !remove_commas_app. simpl.
    rewrite (remove_commas_spaces ws1 H1), (remove_commas_spaces ws2 H2).
    rewrite <- (strip_padded ws1 (remove_commas a ++ remove_commas b) ws2 H1 H2).
    now rewrite append_assoc. }
  now rewrite E.
Qed.

Lemma quantity_ignores_commas_and_padding_witness :
  forall_chars is_space "  " = true
  /\ forall_chars is_space " " = true
  /\ calc_pages to_numeric_int
       {| Invoice_No := "DR1"; Item_Name := Some "DIGITAL PRINT 2 SIDES";
          Sales_Qty := "  " ++ "1" ++ "," ++ "200" ++ " ";
          Customer_Name := None |}
     = calc_pages to_numeric_int
         {| Invoice_No := "DR1"; Item_Name := Some "DIGITAL PRINT 2 SIDES";
            Sales_Qty := "1" ++ "200"; Customer_Name := None |}.
Proof.
  split; [reflexivity|]. split; [reflexivity|].
  apply (quantity_ignores_commas_and_padding to_numeric_int "DR1"
           (Some "DIGITAL PRINT 2 SIDES") None "  " "1" "200" " ");
    reflexivity.
Defined.

(** ** Grouping, further *)

Lemma sum_Z_app (l1 l2 : list Z) :
  sum_Z (l1 ++ l2) = (sum_Z l1 + sum_Z l2)%Z.
Proof. induction l1 as [|x l1 IH]; simpl; [reflexivity | rewrite IH; lia]. Qed.

Lemma sum_Z_perm (l1 l2 : list Z) :
  Permutation l1 l2 -> sum_Z l1 = sum_Z l2.
Proof. induction 1; simpl; lia. Qed.

Lemma sum_Z_filter_split {A : Type} (w : A -> Z) (f : A -> bool)
  (l : list A) :
  sum_Z (map w l)
  = (sum_Z (map w (filter f l))
     + sum_Z (map w (filter (fun x => negb (f x)) l)))%Z.
Proof.
  induction l as [|x l IH]; simpl; [reflexivity|].
  destruct (f x); simpl; lia.
Qed.

Section GroupSums.
Context {R K A : Type}.
Variable eqb : K -> K -> bool.
Variable leb : K -> K -> bool.
Variable key : R -> option K.
Variable init : K -> R -> A.
Variable step : A -> R -> A.
(** A column [val] of the aggregate that sums the column [w] of the
    rows. *)
Variable val : A -> Z.
Variable w : R -> Z.
Hypothesis val_init : forall k r, val (init k r) = w r.
Hypothesis val_step : forall a r, val (step a r) = (val a + w r)%Z.

Lemma sum_upsert (k : K) (r : R) (g : list (K * A)) :
  sum_Z (map (fun x => val (snd x)) (upsert eqb init step k r g))
  = (sum_Z (map (fun x => val (snd x)) g) + w r)%Z.
Proof.
  induction g as [|[k' a] g IH]; simpl.
  - rewrite val_init. lia.
  - destruct (eqb k k'); simpl; [rewrite val_step | rewrite IH]; lia.
Qed.

Lemma sum_fold_add_row (rows : list R) (g : list (K * A)) :
  sum_Z (map (fun x => val (snd x))
             (fold_left (add_row eqb key init step) rows g))
  = (sum_Z (map (fun x => val (snd x)) g)
     + sum_Z (map w (keyed key rows)))%Z.
Proof.
  revert g. induction rows as [|r rows IH]; intros g; simpl; [lia|].
  rewrite IH. unfold add_row, keyed. simpl.
  destruct (key r); simpl; [rewrite sum_upsert|]; lia.
Qed.

(** The column summed over the groups is the column summed over the rows
    that have a key. *)
Lemma sum_groupby (rows : list R) :
  sum_Z (map val (groupby eqb leb key init step rows))
  = sum_Z (map w (keyed key rows)).
Proof.
  unfold groupby. rewrite map_map.
  rewrite (sum_Z_perm _ (map (fun x => val (snd x))
                             (collect eqb key init step rows)))
    by apply Permutation_map, sort_by_perm.
  unfold collect. rewrite sum_fold_add_row. simpl. lia.
Qed.
End GroupSums.

Section TotalsFacts.

Variable to_numeric : string -> option Z.

Local Abbreviation pages := (fuji_Printed_Pages to_numeric).
Local Abbreviation expected := (fun r => fillna0 (calc_pages to_numeric r)).

Lemma fuji_fold_pages (t : list fuji_row) (g : fuji_group) :
  fg_Printed_Pages (fold_left (fuji_step to_numeric) t g)
  = (fg_Printed_Pages g + sum_Z (map pages t))%Z.
Proof.
  revert g. induction t as [|r t IH]; intros g; simpl; [lia|].
  rewrite IH. simpl. lia.
Qed.

Lemma rows_of_with_dr (fuji_df : list fuji_row) (k : N) :
  rows_of N.eqb fuji_DR_Num k (fuji_with_dr fuji_df)
  = rows_of N.eqb fuji_DR_Num k fuji_df.
Proof.
  unfold rows_of, fuji_with_dr. rewrite filter_filter.
  apply filter_ext. intros r. now destruct (fuji_DR_Num r).
Qed.

(** A printer group sums the pages of the printer rows of its DR
    number. *)
Lemma fuji_grouped_row (fuji_df : list fuji_row) (g : fuji_group) :
  In g (fuji_grouped to_numeric fuji_df) ->
  fg_Printed_Pages g
  = sum_Z (map pages (rows_of N.eqb fuji_DR_Num (fg_DR_Num g) fuji_df)).
Proof.
  intros Hin.
  apply (groupby_row N.eqb N.leb fuji_DR_Num (fuji_init to_numeric)
           (fuji_step to_numeric) N.eqb_eq fg_DR_Num
           (fun _ _ => eq_refl) (fun _ _ => eq_refl)) in Hin
    as (r & t & E & Hg).
  rewrite rows_of_with_dr in E. rewrite E, Hg at 1.
  now rewrite fuji_fold_pages.
Qed.

Lemma proof_rows (fuji_df : list fuji_row) (k : N) :
  map pr_Printed_Pages (proof to_numeric fuji_df k)
  = map pages (rows_of N.eqb fuji_DR_Num k fuji_df).
Proof.
  unfold proof. rewrite map_map. simpl.
  now rewrite <- (rows_of_with_dr fuji_df k).
Qed.

Lemma keyed_anon_lost (rows : list fuji_row) :
  sum_Z (map pages rows)
  = (sum_Z (map pages (keyed anon_key rows))
     + sum_Z (map pages (filter (fun r => isnull (anon_key r)) rows)))%Z.
Proof.
  unfold keyed.
  rewrite (sum_Z_filter_split pages (fun r => negb (isnull (anon_key r)))).
  rewrite (filter_ext (fun r => negb (negb (isnull (anon_key r))))
             (fun r => isnull (anon_key r)));
    [reflexivity | intros r; apply negb_involutive].
Qed.

End TotalsFacts.

(** X7.  No printed page is counted twice and the only pages not counted
    are those of the printer rows without a DR number and without a job
    name or an owner: the pages of the printer log are those of the DR
    groups, those of the anonymous summary and those of these rows. *)
Theorem printed_pages_accounted_for :
  forall (to_numeric : string -> option Z)
         (sort : list anon_row -> list anon_row),
    sorts_descending sort ->
    forall fuji_df : list fuji_row,
      sum_Z (map (fuji_Printed_Pages to_numeric) fuji_df)
      = (sum_Z (map fg_Printed_Pages (fuji_grouped to_numeric fuji_df))
         + sum_Z (map an_Printed_Pages
                      (anonymous_summary to_numeric sort fuji_df))
         + sum_Z (map (fuji_Printed_Pages to_numeric) (lost_rows fuji_df)))%Z.
Proof.
  intros tn sort Hsort fuji_df.
  destruct (Hsort (anonymous_groups tn fuji_df)) as (Hp & _).
  unfold anonymous_summary.
  rewrite (sum_Z_perm _ _ (Permutation_map an_Printed_Pages Hp)).
  unfold anonymous_groups, fuji_grouped.
  rewrite (sum_groupby N.eqb N.leb fuji_DR_Num (fuji_init tn) (fuji_step tn)
             fg_Printed_Pages (fuji_Printed_Pages tn)
             (fun _ _ => eq_refl) (fun _ _ => eq_refl)).
  rewrite (sum_groupby pair_eqb pair_leb anon_key (anon_init tn) (anon_step tn)
             an_Printed_Pages (fuji_Printed_Pages tn)
             (fun _ _ => eq_refl) (fun _ _ => eq_refl)).
  unfold lost_rows. rewrite <- Z.add_assoc, <- keyed_anon_lost.
  rewrite (sum_Z_filter_split (fuji_Printed_Pages tn)
             (fun r => negb (isnull (fuji_DR_Num r))) fuji_df).
  unfold keyed, fuji_with_dr, anonymous_raw.
  rewrite filter_filter.
  rewrite (filter_ext (fun r => negb (isnull (fuji_DR_Num r))
                                && negb (isnull (fuji_DR_Num r)))
             (fun r => negb (isnull (fuji_DR_Num r))))
    by (intros r; apply andb_diag).
  rewrite (filter_ext (fun r => negb (negb (isnull (fuji_DR_Num r))))
             (fun r => isnull (fuji_DR_Num r)))
    by (intros r; apply negb_involutive).
  reflexivity.
Qed.

Lemma printed_pages_accounted_for_witness :
  sorts_descending sort_values_stable
  /\ let fuji_df :=
       [{| Job_Name := Some "Job DR7"; Printed_Pages := Num 4;
           Owner := Some "Al"; Recorded_Date_Time := "09:00" |};
        {| Job_Name := Some "Banner"; Printed_Pages := Txt "6";
           Owner := Some "Al"; Recorded_Date_Time := "09:10" |};
        {| Job_Name := Some "Banner"; Printed_Pages := Num 3;
           Owner := None; Recorded_Date_Time := "09:20" |}] in
     sum_Z (map (fuji_Printed_Pages to_numeric_int) fuji_df)
     = (sum_Z (map fg_Printed_Pages (fuji_grouped to_numeric_int fuji_df))
        + sum_Z (map an_Printed_Pages
                     (anonymous_summary to_numeric_int sort_values_stable
                        fuji_df))
        + sum_Z (map (fuji_Printed_Pages to_numeric_int)
                     (lost_rows fuji_df)))%Z.
Proof.
  split; [exact sort_values_stable_ok|]. intros fuji_df.
  exact (printed_pages_accounted_for to_numeric_int sort_values_stable
           sort_values_stable_ok fuji_df).
Defined.

(** X8.  The expected pages of the aggregated POS groups add up to the
    expected pages of the retained POS rows that have a DR number, a
    [NaN] counting for nothing; the other rows add nothing. *)
Theorem expected_pages_accounted_for :
  forall (to_numeric : string -> option Z) (pos_df : list pos_row),
    sum_Z (map pg_Expected_Pages (pos_grouped to_numeric pos_df))
    = sum_Z (map (fun r => fillna0 (calc_pages to_numeric r))
                 (with_DR_Num (pos_print pos_df))).
Proof.
  intros tn pos_df. unfold pos_grouped.
  rewrite (sum_groupby N.eqb N.leb pos_DR_Num (pos_init tn) (pos_step tn)
             pg_Expected_Pages (fun r => fillna0 (calc_pages tn r))).
  - reflexivity.
  - intros k r. simpl. unfold sum_skipna, Expected_Pages. lia.
  - intros a r. reflexivity.
Qed.

(** ** The normalizers, further *)

Section NormalizerExtras.

Variable to_numeric : string -> option Z.

Lemma pos_fold_Customer (t : list pos_row) (a : pos_group) :
  pg_Customer_Name (fold_left (pos_step to_numeric) t a)
  = first_some (pg_Customer_Name a :: map Customer_Name t).
Proof.
  revert a. induction t as [|r t IH]; intros a; simpl.
  - now destruct (pg_Customer_Name a).
  - rewrite IH. simpl. unfold first_notnull.
    now destruct (pg_Customer_Name a).
Qed.

Lemma anonymous_raw_app (l1 l2 : list fuji_row) :
  anonymous_raw (l1 ++ l2) = (anonymous_raw l1 ++ anonymous_raw l2)%list.
Proof. apply filter_app. Qed.

End NormalizerExtras.

(** X9.  An aggregated POS group shows the invoice of the first retained
    row that has its DR number, and the first customer name that is not
    missing among these rows. *)
Theorem pos_group_shows_first_invoice_and_customer :
  forall (to_numeric : string -> option Z) (pos_df : list pos_row),
    Forall
      (fun g =>
         let rows := rows_of N.eqb pos_DR_Num (pg_DR_Num g)
                             (pos_print pos_df) in
         hd_error (map Invoice_No rows) = Some (pg_Invoice_No g)
         /\ pg_Customer_Name g = first_some (map Customer_Name rows))
      (pos_grouped to_numeric pos_df).
Proof.
  intros tn pos_df. apply Forall_forall. intros g Hin.
  apply (groupby_row N.eqb N.leb pos_DR_Num (pos_init tn) (pos_step tn)
           N.eqb_eq pg_DR_Num (fun _ _ => eq_refl) (fun _ _ => eq_refl))
    in Hin as (r & t & E & Hg).
  cbv zeta. rewrite E. split.
  - rewrite Hg at 1. now rewrite pos_fold_Invoice.
  - rewrite Hg at 1. now rewrite pos_fold_Customer.
Qed.

(** X10.  A printer row without a DR number that lacks its job name or
    its owner is in no output: taking it out of the printer log changes
    neither the DR groups, nor the anonymous groups, nor any proof
    table. *)
Theorem printer_row_without_pair_is_dropped :
  forall (to_numeric : string -> option Z) (l1 l2 : list fuji_row)
         (r : fuji_row),
    fuji_DR_Num r = None ->
    Job_Name r = None \/ Owner r = None ->
    fuji_grouped to_numeric (l1 ++ r :: l2) = fuji_grouped to_numeric (l1 ++ l2)
    /\ anonymous_groups to_numeric (l1 ++ r :: l2)
       = anonymous_groups to_numeric (l1 ++ l2)
    /\ (forall k, proof to_numeric (l1 ++ r :: l2) k
                  = proof to_numeric (l1 ++ l2) k).
Proof.
  intros tn l1 l2 r Hdr Hpair.
  assert (Hw : fuji_with_dr (l1 ++ r :: l2) = fuji_with_dr (l1 ++ l2)).
  { unfold fuji_with_dr. rewrite !filter_app. simpl. now rewrite Hdr. }
  assert (Hk : anon_key r = None).
  { unfold anon_key. destruct Hpair as [-> | ->]; [reflexivity|].
    now destruct (Job_Name r). }
  split; [unfold fuji_grouped; now rewrite Hw|]. split.
  - unfold anonymous_groups, groupby. rewrite !anonymous_raw_app. simpl.
    unfold anonymous_raw at 2. simpl. rewrite Hdr. simpl.
    fold (anonymous_raw l2).
    now rewrite (collect_skip_null pair_eqb anon_key (anon_init tn)
                   (anon_step tn) _ _ r Hk).
  - intros k. unfold proof. now rewrite Hw.
Qed.

Lemma printer_row_without_pair_is_dropped_witness :
  let r := {| Job_Name := Some "Banner"; Printed_Pages := Num 3;
              Owner := None; Recorded_Date_Time := "09:20" |} in
  let l1 := [{| Job_Name := Some "Banner"; Printed_Pages := Num 6;
                Owner := Some "Al"; Recorded_Date_Time := "09:10" |}] in
  fuji_DR_Num r = None
  /\ (Job_Name r = None \/ Owner r = None)
  /\ anonymous_groups to_numeric_int (l1 ++ r :: [])
     = anonymous_groups to_numeric_int (l1 ++ []).
Proof.
  intros r l1. split; [reflexivity|]. split; [now right|].
  exact (proj1 (proj2 (printer_row_without_pair_is_dropped to_numeric_int
                         l1 [] r eq_refl (or_intror eq_refl)))).
Defined.

(** ** The reconciliation, further *)

Section ReconExtras.

Variable to_numeric : string -> option Z.
Variable pos_df : list pos_row.
Variable fuji_df : list fuji_row.

Local Abbreviation ls := (pos_grouped to_numeric pos_df).
Local Abbreviation rs := (fuji_grouped to_numeric fuji_df).
Local Abbreviation mg := (merged to_numeric pos_df fuji_df).
Local Abbreviation keysL := (map pg_DR_Num ls).
Local Abbreviation keysR := (map fg_DR_Num rs).

Lemma merged_row_by_key (k : N) :
  In k keysL \/ In k keysR -> exists m, In m mg /\ m_DR_Num m = k.
Proof.
  intros H.
  apply (merge_outer_keys ls rs k (fuji_grouped_NoDup to_numeric fuji_df))
    in H.
  apply in_map_iff in H as (m & <- & Hin). now exists m.
Qed.

Lemma unprinted_keys (k : N) :
  In k (map m_DR_Num (unprinted to_numeric pos_df fuji_df))
  <-> In k keysL /\ ~ In k keysR.
Proof.
  split.
  - intros H. apply in_map_iff in H as (m & <- & Hin).
    apply filter_In in Hin as [Hin Hi]. apply indicator_eqb_eq in Hi.
    apply (merged_row_origin to_numeric pos_df fuji_df) in Hin.
    rewrite Hi in Hin. destruct Hin as (a & Ha & -> & Hn). simpl.
    split; [now apply in_map | exact Hn].
  - intros [HL HR]. destruct (merged_row_by_key k (or_introl HL))
      as (m & Hin & <-).
    apply in_map. apply filter_In. split; [exact Hin|].
    pose proof (merged_row_origin to_numeric pos_df fuji_df m Hin) as Ho.
    destruct (m_merge m); [reflexivity | |].
    + destruct Ho as (b & _ & -> & Hn). contradiction.
    + destruct Ho as (a & b & _ & Hb & Hk & ->). exfalso. apply HR.
      simpl. rewrite <- Hk. now apply in_map.
Qed.

Lemma matched_keys (k : N) :
  In k (map m_DR_Num (matched to_numeric pos_df fuji_df))
  <-> In k keysL /\ In k keysR.
Proof.
  split.
  - intros H. apply in_map_iff in H as (m & <- & Hin).
    apply filter_In in Hin as [Hin Hi]. apply indicator_eqb_eq in Hi.
    apply (merged_row_origin to_numeric pos_df fuji_df) in Hin.
    rewrite Hi in Hin. destruct Hin as (a & b & Ha & Hb & Hk & ->). simpl.
    split; [now apply in_map|]. rewrite <- Hk. now apply in_map.
  - intros [HL HR]. destruct (merged_row_by_key k (or_introl HL))
      as (m & Hin & <-).
    apply in_map. apply filter_In. split; [exact Hin|].
    pose proof (merged_row_origin to_numeric pos_df fuji_df m Hin) as Ho.
    destruct (m_merge m); [| |reflexivity].
    + destruct Ho as (a & _ & -> & Hn). contradiction.
    + destruct Ho as (b & _ & -> & Hn). contradiction.
Qed.

(** The numbers of a matched row are the sums over the rows of its DR
    number in the two inputs. *)
Lemma matched_row_sums (m : merged_row) :
  In m (matched to_numeric pos_df fuji_df) ->
  m_Expected_Pages m
  = Some (sum_Z (map (fun r => fillna0 (calc_pages to_numeric r))
                     (rows_of N.eqb pos_DR_Num (m_DR_Num m)
                              (pos_print pos_df))))
  /\ m_Printed_Pages m
     = Some (sum_Z (map (fuji_Printed_Pages to_numeric)
                        (rows_of N.eqb fuji_DR_Num (m_DR_Num m) fuji_df))).
Proof.
  intros Hin. apply filter_In in Hin as [Hin Hi].
  apply indicator_eqb_eq in Hi.
  apply (merged_row_origin to_numeric pos_df fuji_df) in Hin.
  rewrite Hi in Hin. destruct Hin as (a & b & Ha & Hb & Hk & ->). simpl.
  destruct (pos_grouped_row to_numeric pos_df a Ha) as (r & t & E & _ & Hs).
  rewrite E, Hs, <- Hk. now rewrite (fuji_grouped_row to_numeric fuji_df b Hb).
Qed.

End ReconExtras.

(** X11.  In every matched row the printed pages are the sum of the
    pages of its proof table, the expected pages are the sum over the
    retained POS rows of its DR number, and [Diff] is the first less the
    second. *)
Theorem matched_row_adds_up :
  forall (to_numeric : string -> option Z) (pos_df : list pos_row)
         (fuji_df : list fuji_row),
    Forall
      (fun m =>
         let printed :=
           sum_Z (map pr_Printed_Pages
                      (proof to_numeric fuji_df (m_DR_Num m))) in
         let expected :=
           sum_Z (map (fun r => fillna0 (calc_pages to_numeric r))
                      (rows_of N.eqb pos_DR_Num (m_DR_Num m)
                               (pos_print pos_df))) in
         m_Printed_Pages m = Some printed
         /\ m_Expected_Pages m = Some expected
         /\ Diff m = Some (printed - expected)%Z)
      (matched to_numeric pos_df fuji_df).
Proof.
  intros tn pos_df fuji_df. apply Forall_forall. intros m Hin.
  destruct (matched_row_sums tn pos_df fuji_df m Hin) as (He & Hp).
  cbv zeta. rewrite proof_rows. unfold Diff. rewrite He, Hp.
  now repeat split.
Qed.

(** X12.  What the tabs show, read off the two inputs.  A DR number is
    unprinted exactly when a retained POS row has it and no printer row
    has it; it is matched exactly when both have it, and then mismatched
    exactly when the printed pages of its printer rows and the expected
    pages of its POS rows differ. *)
Theorem tabs_in_terms_of_inputs :
  forall (to_numeric : string -> option Z) (pos_df : list pos_row)
         (fuji_df : list fuji_row) (k : N),
    let billed := exists p, In p (pos_print pos_df) /\ pos_DR_Num p = Some k in
    let printed := exists r, In r fuji_df /\ fuji_DR_Num r = Some k in
    (In k (map m_DR_Num (unprinted to_numeric pos_df fuji_df))
     <-> billed /\ ~ printed)
    /\ (In k (map m_DR_Num (matched to_numeric pos_df fuji_df))
        <-> billed /\ printed)
    /\ (In k (map m_DR_Num (mismatches to_numeric pos_df fuji_df))
        <-> billed /\ printed
            /\ sum_Z (map (fuji_Printed_Pages to_numeric)
                          (rows_of N.eqb fuji_DR_Num k fuji_df))
               <> sum_Z (map (fun r => fillna0 (calc_pages to_numeric r))
                             (rows_of N.eqb pos_DR_Num k (pos_print pos_df)))).
Proof.
  intros tn pos_df fuji_df k billed printed.
  pose proof (pos_grouped_keys tn pos_df k) as HL.
  pose proof (fuji_grouped_keys tn fuji_df k) as HR.
  fold billed in HL. fold printed in HR.
  pose proof (unprinted_keys tn pos_df fuji_df k) as HU.
  pose proof (matched_keys tn pos_df fuji_df k) as HM.
  split; [tauto|]. split; [tauto|].
  unfold mismatches. split.
  - intros H. apply in_map_iff in H as (m & <- & Hin).
    apply filter_In in Hin as [Hin Hd].
    assert (Hk : In (m_DR_Num m) (map m_DR_Num (matched tn pos_df fuji_df)))
      by now apply in_map.
    destruct (matched_row_sums tn pos_df fuji_df m Hin) as (He & Hp).
    split; [tauto|]. split; [tauto|].
    intros E. unfold Diff_ne0, Diff in Hd. rewrite He, Hp, E in Hd.
    now rewrite Z.sub_diag in Hd.
  - intros (Hb & Hp & Hne).
    assert (Hk : In k (map m_DR_Num (matched tn pos_df fuji_df))) by tauto.
    apply in_map_iff in Hk as (m & <- & Hin).
    apply in_map. apply filter_In. split; [exact Hin|].
    destruct (matched_row_sums tn pos_df fuji_df m Hin) as (He & Hq).
    unfold Diff_ne0, Diff. rewrite He, Hq.
    match goal with |- context [(?a - ?b)%Z] =>
      destruct (a - b)%Z eqn:Ed; [|reflexivity|reflexivity] end.
    exfalso. apply Hne. lia.
Qed.


Section TabExtras.

Variable to_numeric : string -> option Z.
Variable pos_df : list pos_row.
Variable fuji_df : list fuji_row.

Local Abbreviation ls := (pos_grouped to_numeric pos_df).
Local Abbreviation rs := (fuji_grouped to_numeric fuji_df).
Local Abbreviation mg := (merged to_numeric pos_df fuji_df).
Local Abbreviation U := (unprinted to_numeric pos_df fuji_df).
Local Abbreviation M := (matched to_numeric pos_df fuji_df).

Lemma shown_keys_NoDup : NoDup (map m_DR_Num U ++ map m_DR_Num M).
Proof.
  pose proof (merged_NoDup to_numeric pos_df fuji_df) as Hd.
  apply NoDup_app.
  - now apply filter_keeps_distinct_keys.
  - now apply filter_keeps_distinct_keys.
  - intros k HU HM. apply unprinted_keys in HU. apply matched_keys in HM.
    tauto.
Qed.

(** Every POS group is unprinted or matched, and only once. *)
Lemma billed_split : length ls = (length U + length M)%nat.
Proof.
  rewrite <- (length_map pg_DR_Num ls), <- (length_map m_DR_Num U),
    <- (length_map m_DR_Num M), <- length_app.
  apply Permutation_length, NoDup_Permutation;
    [apply pos_grouped_NoDup | apply shown_keys_NoDup |].
  intros k. rewrite in_app_iff, unprinted_keys, matched_keys.
  destruct (in_dec N.eq_dec k (map fg_DR_Num rs)); tauto.
Qed.

Lemma sorted_strict (l : list merged_row) :
  StronglySorted (fun x y => (m_DR_Num x <=? m_DR_Num y) = true) l ->
  NoDup (map m_DR_Num l) ->
  StronglySorted (fun x y => m_DR_Num x < m_DR_Num y) l.
Proof.
  induction 1 as [|x l Hs IH Hf]; simpl; intros Hd; [constructor|].
  inversion Hd as [|? ? Hn Hd']; subst.
  constructor; [now apply IH|].
  rewrite Forall_forall in *. intros y Hy.
  specialize (Hf y Hy). apply N.leb_le in Hf.
  assert (m_DR_Num x <> m_DR_Num y).
  { intros E. apply Hn. rewrite E. now apply in_map. }
  lia.
Qed.

Lemma sorted_filter {A : Type} (R : A -> A -> Prop) (f : A -> bool)
  (l : list A) :
  StronglySorted R l -> StronglySorted R (filter f l).
Proof.
  induction 1 as [|x l Hs IH Hf]; simpl; [constructor|].
  destruct (f x); [|exact IH].
  constructor; [exact IH|].
  rewrite Forall_forall in *. intros y Hy.
  apply filter_In in Hy as [Hy _]. now apply Hf.
Qed.

Lemma merged_ascending :
  StronglySorted (fun x y => m_DR_Num x < m_DR_Num y) mg.
Proof.
  apply sorted_strict; [|apply merged_NoDup].
  unfold merged, merge_outer.
  apply (sort_by_sorted (fun x y => m_DR_Num x <=? m_DR_Num y)).
  - intros x y. rewrite !N.leb_le. lia.
  - intros x y z. rewrite !N.leb_le. lia.
Qed.

End TabExtras.

(** X13.  A job that the printer log has under a DR number no retained
    POS row has is shown in no tab: its number is not unprinted, not
    matched, not mismatched, and its rows are not anonymous. *)
Theorem printer_only_job_is_shown_nowhere :
  forall (to_numeric : string -> option Z) (pos_df : list pos_row)
         (fuji_df : list fuji_row) (r : fuji_row) (k : N),
    In r fuji_df ->
    fuji_DR_Num r = Some k ->
    (forall p, In p (pos_print pos_df) -> pos_DR_Num p <> Some k) ->
    ~ In k (map m_DR_Num (unprinted to_numeric pos_df fuji_df))
    /\ ~ In k (map m_DR_Num (matched to_numeric pos_df fuji_df))
    /\ ~ In k (map m_DR_Num (mismatches to_numeric pos_df fuji_df))
    /\ ~ In r (anonymous_raw fuji_df)
    /\ In k (map m_DR_Num (printer_only to_numeric pos_df fuji_df)).
Proof.
  intros tn pos_df fuji_df r k Hr Hk Hno.
  assert (HL : ~ In k (map pg_DR_Num (pos_grouped tn pos_df))).
  { intros H. apply pos_grouped_keys in H as (p & Hp & E).
    exact (Hno p Hp E). }
  assert (HR : In k (map fg_DR_Num (fuji_grouped tn fuji_df))).
  { apply fuji_grouped_keys. now exists r. }
  split; [|split; [|split; [|split]]].
  - intros H. apply unprinted_keys in H. tauto.
  - intros H. apply matched_keys in H. tauto.
  - intros H. apply in_map_iff in H as (m & <- & Hin).
    apply filter_In in Hin as [Hin _].
    apply HL.
    apply (proj1 (matched_keys tn pos_df fuji_df (m_DR_Num m))).
    now apply in_map.
  - intros H. apply filter_In in H as [_ H]. now rewrite Hk in H.
  - destruct (merged_row_by_key tn pos_df fuji_df k (or_intror HR))
      as (m & Hin & <-).
    apply in_map. apply filter_In. split; [exact Hin|].
    pose proof (merged_row_origin tn pos_df fuji_df m Hin) as Ho.
    destruct (m_merge m); [|reflexivity|].
    + destruct Ho as (a & Ha & -> & _). exfalso. apply HL. simpl.
      now apply in_map.
    + destruct Ho as (a & b & Ha & _ & _ & ->). exfalso. apply HL. simpl.
      now apply in_map.
Qed.

Lemma printer_only_job_is_shown_nowhere_witness :
  let pos_df := [{| Invoice_No := "DR1";
                    Item_Name := Some "DIGITAL PRINT 1 SIDE";
                    Sales_Qty := "5"; Customer_Name := Some "Acme" |}] in
  let r := {| Job_Name := Some "DR2 flyer"; Printed_Pages := Num 40;
              Owner := Some "Al"; Recorded_Date_Time := "09:00" |} in
  In r [r]
  /\ fuji_DR_Num r = Some 2
  /\ (forall p, In p (pos_print pos_df) -> pos_DR_Num p <> Some 2)
  /\ ~ In 2 (map m_DR_Num (mismatches to_numeric_int pos_df [r])).
Proof.
  intros pos_df r.
  assert (H : forall p, In p (pos_print pos_df) -> pos_DR_Num p <> Some 2).
  { intros p [<-|[]]. discriminate. }
  split; [now left|]. split; [reflexivity|]. split; [exact H|].
  exact (proj1 (proj2 (proj2
           (printer_only_job_is_shown_nowhere to_numeric_int pos_df [r] r 2
              (or_introl eq_refl) eq_refl H)))).
Defined.

(** X14.  The metrics of the dashboard fit together: every billed
    invoice is either unprinted or matched, so the billed invoices are as
    many as the unprinted and the matched ones, and the unprinted and the
    mismatched ones together are never more than the billed ones. *)
Theorem metrics_fit_together :
  forall (to_numeric : string -> option Z)
         (sort : list anon_row -> list anon_row)
         (pos_df : list pos_row) (fuji_df : list fuji_row),
    let '(billed, unprinted_n, mismatches_n, _) :=
      metrics to_numeric sort pos_df fuji_df in
    billed = (unprinted_n + length (matched to_numeric pos_df fuji_df))%nat
    /\ (unprinted_n + mismatches_n <= billed)%nat.
Proof.
  intros tn sort pos_df fuji_df. unfold metrics.
  pose proof (billed_split tn pos_df fuji_df) as E.
  split; [exact E|]. rewrite E. apply Nat.add_le_mono_l.
  unfold mismatches. apply filter_length_le.
Qed.

(** X15.  The tables of the first two tabs list every DR number once,
    in ascending order. *)
Theorem tabs_ascending_by_DR_number :
  forall (to_numeric : string -> option Z) (pos_df : list pos_row)
         (fuji_df : list fuji_row),
    StronglySorted (fun x y => m_DR_Num x < m_DR_Num y)
                   (unprinted to_numeric pos_df fuji_df)
    /\ StronglySorted (fun x y => m_DR_Num x < m_DR_Num y)
                      (mismatches to_numeric pos_df fuji_df).
Proof.
  intros tn pos_df fuji_df.
  pose proof (merged_ascending tn pos_df fuji_df) as H.
  split; unfold unprinted, mismatches, matched; repeat apply sorted_filter;
    exact H.
Qed.


(** ** The proof section, further *)

Section LabelFacts.

Variable to_numeric : string -> option Z.
Variable str_num : Z -> string.
Variable pos_df : list pos_row.
Variable fuji_df : list fuji_row.

Local Abbreviation M := (matched to_numeric pos_df fuji_df).
Local Abbreviation large := (large_mismatches to_numeric pos_df fuji_df).

(** A matched row shows an invoice that yields its DR number. *)
Lemma matched_row_invoice (m : merged_row) :
  In m M ->
  exists inv,
    m_Invoice_No m = Some inv /\ str_extract_DR false inv = Some (m_DR_Num m).
Proof.
  intros Hin. apply filter_In in Hin as [Hin Hi].
  apply indicator_eqb_eq in Hi.
  apply (merged_row_origin to_numeric pos_df fuji_df) in Hin.
  rewrite Hi in Hin. destruct Hin as (a & b & Ha & _ & _ & ->). simpl.
  destruct (pos_grouped_row to_numeric pos_df a Ha) as (r & t & E & Hv & _).
  exists (pg_Invoice_No a). split; [reflexivity|]. rewrite Hv.
  assert (Hr : In r (rows_of N.eqb pos_DR_Num (pg_DR_Num a)
                             (pos_print pos_df))) by (rewrite E; now left).
  apply filter_In in Hr as [_ Hr]. unfold pos_DR_Num in Hr.
  destruct (str_extract_DR false (Invoice_No r)) as [k|]; [|discriminate].
  apply N.eqb_eq in Hr. now subst k.
Qed.

Lemma large_in_matched (m : merged_row) : In m large -> In m M.
Proof.
  intros H. apply filter_In in H as [H _]. now apply filter_In in H as [H _].
Qed.

(** Two invoices that start equal labels yield the same DR number: one
    of them is the other followed by the space of " - ". *)
Lemma same_label_same_number (inv1 inv2 t1 t2 : string) (k1 k2 : N) :
  str_extract_DR false inv1 = Some k1 ->
  str_extract_DR false inv2 = Some k2 ->
  (inv1 ++ " - " ++ t1 = inv2 ++ " - " ++ t2)%string ->
  k1 = k2.
Proof.
  intros E1 E2 H.
  apply append_eq_append in H as [(w & -> & Hw)|(c & w & -> & Hw)].
  - destruct w as [|c w].
    + rewrite append_nil_r in E2. congruence.
    + simpl in Hw. injection Hw as <- _.
      rewrite (extract_app_stable false inv1 (String " " w) k1 E1 eq_refl) in E2.
      congruence.
  - simpl in Hw. injection Hw as <- _.
    rewrite (extract_app_stable false inv2 (String " " w) k2 E2 eq_refl) in E1.
    congruence.
Qed.

Lemma same_label_same_key (r1 r2 : merged_row) :
  In r1 large -> In r2 large ->
  label str_num r1 = label str_num r2 ->
  m_DR_Num r1 = m_DR_Num r2.
Proof.
  intros H1 H2 E.
  destruct (matched_row_invoice r1 (large_in_matched r1 H1))
    as (inv1 & Hi1 & Hk1).
  destruct (matched_row_invoice r2 (large_in_matched r2 H2))
    as (inv2 & Hi2 & Hk2).
  unfold label in E. rewrite Hi1, Hi2 in E. simpl in E.
  exact (same_label_same_number _ _ _ _ _ _ Hk1 Hk2 E).
Qed.

Lemma large_keys_NoDup : NoDup (map m_DR_Num large).
Proof.
  unfold large_mismatches, mismatches, matched.
  repeat apply filter_keeps_distinct_keys. apply merged_NoDup.
Qed.

Lemma NoDup_map_coarser {A B C : Type} (f : A -> B) (g : A -> C)
  (l : list A) :
  (forall x y, In x l -> In y l -> g x = g y -> f x = f y) ->
  NoDup (map f l) -> NoDup (map g l).
Proof.
  induction l as [|x l IH]; simpl; intros Hfg Hd; [constructor|].
  inversion Hd as [|? ? Hn Hd']; subst. constructor.
  - intros Hin. apply Hn. apply in_map_iff in Hin as (y & Hy & Hin).
    apply in_map_iff. exists y. split; [|exact Hin].
    apply Hfg; [now right | now left | exact Hy].
  - apply IH; [|exact Hd']. intros y z Hy Hz. apply Hfg; now right.
Qed.

Lemma proof_section_at_row (choice : nat) (r : merged_row) :
  nth_error large choice = Some r ->
  proof_section to_numeric str_num pos_df fuji_df choice
  = if m_DR_Num r =? 0
    then no_table (m_DR_Num r)
    else table (m_DR_Num r) (proof to_numeric fuji_df (m_DR_Num r)).
Proof.
  intros Hn. unfold proof_section.
  assert (Hl : nth_error (labels str_num large) choice
               = Some (label str_num r)).
  { unfold labels. now apply map_nth_error. }
  rewrite Hl.
  destruct (dr_map_label str_num large (label str_num r)
              (nth_error_In _ _ Hl)) as (r' & Hr' & El & Hd).
  rewrite Hd.
  rewrite (same_label_same_key r' r Hr' (nth_error_In _ _ Hn) El).
  destruct large as [|r0 t]; [now destruct choice|].
  now destruct (m_DR_Num r =? 0).
Qed.

End LabelFacts.

(** X16.  The labels of the select box tell the large mismatches apart:
    no two of them have the same label, and picking the label of a row
    shows the proof of the DR number of this very row, or no table when
    the number is zero. *)
Theorem select_box_label_identifies_row :
  forall (to_numeric : string -> option Z) (str_num : Z -> string)
         (pos_df : list pos_row) (fuji_df : list fuji_row),
    let large := large_mismatches to_numeric pos_df fuji_df in
    NoDup (labels str_num large)
    /\ forall choice r,
         nth_error large choice = Some r ->
         proof_section to_numeric str_num pos_df fuji_df choice
         = if m_DR_Num r =? 0
           then no_table (m_DR_Num r)
           else table (m_DR_Num r) (proof to_numeric fuji_df (m_DR_Num r)).
Proof.
  intros tn sn pos_df fuji_df large. split.
  - unfold labels. apply NoDup_map_coarser with (f := m_DR_Num).
    + intros x y. apply same_label_same_key.
    + apply large_keys_NoDup.
  - apply proof_section_at_row.
Qed.

(** ** Independence of the row order *)

Section OrderExtras.

Variable to_numeric : string -> option Z.

Lemma rows_of_nonempty {R : Type} (key : R -> option N) (k : N)
  (rows : list R) :
  rows_of N.eqb key k rows <> [] <-> exists r, In r rows /\ key r = Some k.
Proof.
  unfold rows_of. split.
  - destruct (filter _ rows) as [|r t] eqn:E; [congruence|]. intros _.
    assert (Hr : In r (filter
                         (fun r => match key r with
                                   | Some k' => k' =? k
                                   | None => false
                                   end) rows)) by (rewrite E; now left).
    apply filter_In in Hr as [Hr Hk]. exists r. split; [exact Hr|].
    destruct (key r) as [k'|]; [|discriminate].
    apply N.eqb_eq in Hk. now subst.
  - intros (r & Hr & Hk) E.
    assert (Hin : In r (filter
                          (fun r => match key r with
                                    | Some k' => k' =? k
                                    | None => false
                                    end) rows)).
    { apply filter_In. split; [exact Hr|]. rewrite Hk. apply N.eqb_refl. }
    now rewrite E in Hin.
Qed.

(** Every row of [merged] has the numbers of its DR number. *)
Lemma merged_row_numbers (pos_df : list pos_row) (fuji_df : list fuji_row)
  (m : merged_row) :
  In m (merged to_numeric pos_df fuji_df) ->
  row_numbers m = numbers_of to_numeric pos_df fuji_df (m_DR_Num m).
Proof.
  intros Hin.
  pose proof (merged_row_origin to_numeric pos_df fuji_df m Hin) as Ho.
  unfold row_numbers, numbers_of.
  destruct (m_merge m) eqn:Hi.
  - destruct Ho as (a & Ha & -> & Hn). simpl.
    destruct (pos_grouped_row to_numeric pos_df a Ha) as (r & t & E & _ & Hs).
    rewrite E, Hs.
    destruct (rows_of N.eqb fuji_DR_Num (pg_DR_Num a) fuji_df) eqn:Ef;
      [reflexivity|].
    exfalso. apply Hn. apply fuji_grouped_keys.
    apply rows_of_nonempty. congruence.
  - destruct Ho as (b & Hb & -> & Hn). simpl.
    rewrite (fuji_grouped_row to_numeric fuji_df b Hb).
    destruct (rows_of N.eqb pos_DR_Num (fg_DR_Num b) (pos_print pos_df))
      eqn:Ep.
    + destruct (rows_of N.eqb fuji_DR_Num (fg_DR_Num b) fuji_df) eqn:Ef;
        [|reflexivity].
      exfalso.
      assert (Hk : In (fg_DR_Num b)
                      (map fg_DR_Num (fuji_grouped to_numeric fuji_df)))
        by now apply in_map.
      apply fuji_grouped_keys in Hk. apply rows_of_nonempty in Hk.
      contradiction.
    + exfalso. apply Hn. apply pos_grouped_keys.
      apply rows_of_nonempty. congruence.
  - destruct Ho as (a & b & Ha & Hb & Hk & ->). simpl.
    destruct (pos_grouped_row to_numeric pos_df a Ha) as (r & t & E & _ & Hs).
    rewrite E, Hs, <- Hk, (fuji_grouped_row to_numeric fuji_df b Hb).
    destruct (rows_of N.eqb fuji_DR_Num (fg_DR_Num b) fuji_df) eqn:Ef;
      [|reflexivity].
    exfalso.
    assert (Hk' : In (fg_DR_Num b)
                     (map fg_DR_Num (fuji_grouped to_numeric fuji_df)))
      by now apply in_map.
    apply fuji_grouped_keys in Hk'. apply rows_of_nonempty in Hk'.
    contradiction.
Qed.

Lemma pos_print_perm (pos_df pos_df' : list pos_row) :
  Permutation pos_df pos_df' ->
  Permutation (pos_print pos_df) (pos_print pos_df').
Proof. intros H. unfold pos_print. now do 2 apply filter_perm. Qed.

Lemma sum_rows_perm {R : Type} (key : R -> option N) (w : R -> Z) (k : N)
  (rows rows' : list R) :
  Permutation rows rows' ->
  match rows_of N.eqb key k rows with
  | [] => None
  | _ => Some (sum_Z (map w (rows_of N.eqb key k rows)))
  end
  = match rows_of N.eqb key k rows' with
    | [] => None
    | _ => Some (sum_Z (map w (rows_of N.eqb key k rows')))
    end.
Proof.
  intros H.
  assert (Hp : Permutation (rows_of N.eqb key k rows)
                           (rows_of N.eqb key k rows'))
    by now apply filter_perm.
  rewrite (sum_Z_perm _ _ (Permutation_map w Hp)).
  destruct (rows_of N.eqb key k rows) as [|x l];
    destruct (rows_of N.eqb key k rows') as [|x' l']; try reflexivity.
  - now apply Permutation_nil in Hp.
  - symmetry in Hp. now apply Permutation_nil in Hp.
Qed.

Lemma numbers_of_perm (pos_df pos_df' : list pos_row)
  (fuji_df fuji_df' : list fuji_row) (k : N) :
  Permutation pos_df pos_df' -> Permutation fuji_df fuji_df' ->
  numbers_of to_numeric pos_df fuji_df k
  = numbers_of to_numeric pos_df' fuji_df' k.
Proof.
  intros Hp Hf. apply pos_print_perm in Hp. unfold numbers_of.
  pose proof (sum_rows_perm pos_DR_Num
                (fun r => fillna0 (calc_pages to_numeric r)) k _ _ Hp) as E1.
  pose proof (sum_rows_perm fuji_DR_Num (fuji_Printed_Pages to_numeric)
                k _ _ Hf) as E2.
  assert (P1 : Permutation (rows_of N.eqb pos_DR_Num k (pos_print pos_df))
                 (rows_of N.eqb pos_DR_Num k (pos_print pos_df')))
    by now apply filter_perm.
  assert (P2 : Permutation (rows_of N.eqb fuji_DR_Num k fuji_df)
                 (rows_of N.eqb fuji_DR_Num k fuji_df'))
    by now apply filter_perm.
  cbv zeta. rewrite E1, E2. f_equal.
  destruct (rows_of N.eqb pos_DR_Num k (pos_print pos_df));
    destruct (rows_of N.eqb pos_DR_Num k (pos_print pos_df'));
    try (now apply Permutation_nil in P1);
    try (symmetry in P1; now apply Permutation_nil in P1);
    destruct (rows_of N.eqb fuji_DR_Num k fuji_df);
    destruct (rows_of N.eqb fuji_DR_Num k fuji_df');
    try reflexivity;
    try (now apply Permutation_nil in P2);
    try (symmetry in P2; now apply Permutation_nil in P2).
Qed.

(** Two ascending lists with the same members are the same list. *)
Lemma ascending_unique (l1 l2 : list N) :
  StronglySorted N.lt l1 -> StronglySorted N.lt l2 ->
  (forall k, In k l1 <-> In k l2) -> l1 = l2.
Proof.
  intros H1. revert l2. induction H1 as [|x l1 Hs1 IH Hf1]; intros l2 H2 Hm.
  - destruct l2 as [|y l2]; [reflexivity|].
    exfalso. apply (proj2 (Hm y)). now left.
  - destruct H2 as [|y l2 Hs2 Hf2].
    + exfalso. apply (proj1 (Hm x)). now left.
    + rewrite Forall_forall in Hf1, Hf2.
      assert (Exy : x = y).
      { destruct (proj1 (Hm x) (or_introl eq_refl)) as [E|Hx]; [now symmetry|].
        destruct (proj2 (Hm y) (or_introl eq_refl)) as [E|Hy]; [exact E|].
        specialize (Hf1 y Hy). specialize (Hf2 x Hx). lia. }
      subst y. f_equal. apply IH; [exact Hs2|].
      intros k. split; intros Hk.
      * destruct (proj1 (Hm k) (or_intror Hk)) as [E|Hk']; [|exact Hk'].
        specialize (Hf1 k Hk). lia.
      * destruct (proj2 (Hm k) (or_intror Hk)) as [E|Hk']; [|exact Hk'].
        specialize (Hf2 k Hk). lia.
Qed.

Lemma merged_keys_ascending (pos_df : list pos_row) (fuji_df : list fuji_row) :
  StronglySorted N.lt (map m_DR_Num (merged to_numeric pos_df fuji_df)).
Proof.
  pose proof (merged_ascending to_numeric pos_df fuji_df) as H.
  induction H as [|x l Hs IH Hf]; simpl; constructor; [exact IH|].
  rewrite Forall_forall in *. intros k Hk.
  apply in_map_iff in Hk as (y & <- & Hy). now apply Hf.
Qed.

Lemma identifiers_perm (pos_df pos_df' : list pos_row)
  (fuji_df fuji_df' : list fuji_row) (k : N) :
  Permutation pos_df pos_df' -> Permutation fuji_df fuji_df' ->
  In k (identifiers pos_df fuji_df) -> In k (identifiers pos_df' fuji_df').
Proof.
  intros Hp Hf. apply pos_print_perm in Hp.
  unfold identifiers. rewrite !in_app_iff, !in_flat_map.
  intros [(p & Hin & H)|(r & Hin & H)]; [left | right].
  - exists p. split; [exact (Permutation_in _ Hp Hin) | exact H].
  - exists r. split; [exact (Permutation_in _ Hf Hin) | exact H].
Qed.

End OrderExtras.

(** X18.  The reconciliation does not depend on the order of the rows of
    the two inputs: with the rows of the POS table and of the printer log
    in another order, [merged] has the same DR numbers in the same order,
    each with the same expected pages, printed pages and indicator.  (The
    invoice and the customer shown for a DR number are those of its first
    row and can change.) *)
Theorem reconciliation_independent_of_row_order :
  forall (to_numeric : string -> option Z)
         (pos_df pos_df' : list pos_row) (fuji_df fuji_df' : list fuji_row),
    Permutation pos_df pos_df' ->
    Permutation fuji_df fuji_df' ->
    map row_numbers (merged to_numeric pos_df fuji_df)
    = map row_numbers (merged to_numeric pos_df' fuji_df').
Proof.
  intros tn pos_df pos_df' fuji_df fuji_df' Hp Hf.
  assert (Hk : map m_DR_Num (merged tn pos_df fuji_df)
               = map m_DR_Num (merged tn pos_df' fuji_df')).
  { apply ascending_unique; try apply merged_keys_ascending.
    intros k. rewrite !merged_keys. split; apply identifiers_perm;
      try assumption; now symmetry. }
  rewrite (map_ext_in row_numbers
             (fun m => numbers_of tn pos_df fuji_df (m_DR_Num m)))
    by (intros m Hm; now apply merged_row_numbers).
  rewrite (map_ext_in row_numbers
             (fun m => numbers_of tn pos_df' fuji_df' (m_DR_Num m))
             (merged tn pos_df' fuji_df'))
    by (intros m Hm; now apply merged_row_numbers).
  rewrite <- (map_map m_DR_Num (numbers_of tn pos_df fuji_df)).
  rewrite <- (map_map m_DR_Num (numbers_of tn pos_df' fuji_df')).
  rewrite Hk. apply map_ext. intros k. now apply numbers_of_perm.
Qed.

Lemma reconciliation_independent_of_row_order_witness :
  let p1 := {| Invoice_No := "DR1"; Item_Name := Some "DIGITAL PRINT 1 SIDE";
               Sales_Qty := "5"; Customer_Name := Some "Acme" |} in
  let p2 := {| Invoice_No := "DR 1 / DR1";
               Item_Name := Some "DIGITAL PRINT 2 SIDES";
               Sales_Qty := "2"; Customer_Name := Some "Bolt" |} in
  let f1 := {| Job_Name := Some "DR1 a"; Printed_Pages := Num 4;
               Owner := Some "Al"; Recorded_Date_Time := "09:00" |} in
  let f2 := {| Job_Name := Some "DR 2"; Printed_Pages := Num 7;
               Owner := Some "Al"; Recorded_Date_Time := "09:05" |} in
  Permutation [p1; p2] [p2; p1]
  /\ Permutation [f1; f2] [f2; f1]
  /\ map row_numbers (merged to_numeric_int [p1; p2] [f1; f2])
     = map row_numbers (merged to_numeric_int [p2; p1] [f2; f1]).
Proof.
  intros p1 p2 f1 f2.
  split; [apply perm_swap|]. split; [apply perm_swap|].
  apply (reconciliation_independent_of_row_order to_numeric_int);
    apply perm_swap.
Defined.


(** X20.  A row of the unprinted tab has no printed pages and no [Diff];
    it shows an invoice that yields its DR number and, as expected pages,
    the sum over the retained POS rows of this number. *)
Theorem unprinted_row_shows_billed_sum :
  forall (to_numeric : string -> option Z) (pos_df : list pos_row)
         (fuji_df : list fuji_row),
    Forall
      (fun m =>
         m_Printed_Pages m = None
         /\ Diff m = None
         /\ m_Expected_Pages m
            = Some (sum_Z (map (fun r => fillna0 (calc_pages to_numeric r))
                               (rows_of N.eqb pos_DR_Num (m_DR_Num m)
                                        (pos_print pos_df))))
         /\ exists inv,
              m_Invoice_No m = Some inv
              /\ str_extract_DR false inv = Some (m_DR_Num m))
      (unprinted to_numeric pos_df fuji_df).
Proof.
  intros tn pos_df fuji_df. apply Forall_forall. intros m Hin.
  apply filter_In in Hin as [Hin Hi]. apply indicator_eqb_eq in Hi.
  apply (merged_row_origin tn pos_df fuji_df) in Hin.
  rewrite Hi in Hin. destruct Hin as (a & Ha & -> & _). simpl.
  destruct (pos_grouped_row tn pos_df a Ha) as (r & t & E & Hv & Hs).
  split; [reflexivity|]. split; [reflexivity|]. split.
  - now rewrite E, Hs.
  - exists (pg_Invoice_No a). split; [reflexivity|]. rewrite Hv.
    assert (Hr : In r (rows_of N.eqb pos_DR_Num (pg_DR_Num a)
                               (pos_print pos_df))) by (rewrite E; now left).
    apply filter_In in Hr as [_ Hr]. unfold pos_DR_Num in Hr.
    destruct (str_extract_DR false (Invoice_No r)) as [k|]; [|discriminate].
    apply N.eqb_eq in Hr. now subst k.
Qed.


(** ** The expected pages of a row *)

Section QuantityFacts.











End QuantityFacts.




(** ** The proof table *)

Section ProofTableFacts.

Variable to_numeric : string -> option Z.

(** The proof table of a DR number is made of the printer rows that have
    this number, in the order of the log. *)
Lemma proof_as_rows (fuji_df : list fuji_row) (k : N) :
  proof to_numeric fuji_df k
  = map (as_proof_row to_numeric)
        (filter (fun f => match fuji_DR_Num f with
                          | Some d => d =? k
                          | None => false
                          end) fuji_df).
Proof.
  unfold proof.
  change (filter _ (fuji_with_dr fuji_df))
    with (rows_of N.eqb fuji_DR_Num k (fuji_with_dr fuji_df)).
  now rewrite rows_of_with_dr.
Qed.

Lemma as_proof_row_pages (l : list fuji_row) :
  map pr_Printed_Pages (map (as_proof_row to_numeric) l)
  = map (fuji_Printed_Pages to_numeric) l.
Proof. rewrite map_map. reflexivity. Qed.

End ProofTableFacts.

(** C10.  For every option the user can pick in the select box, the
    option is the label of the large mismatch at this position.  When the
    DR number of this row is zero no proof table is shown at all: the
    guard [if selected_dr:] is false of 0.0.  When it is not zero the
    table is shown, and its rows are the printer rows that have this DR
    number, each with its timestamp, job name, printed pages and owner,
    in the order of the log; there is at least one, and their pages add
    up to the printed pages of the mismatch. *)
Theorem proof_table_guarded_by_truthiness :
  forall (to_numeric : string -> option Z) (str_num : Z -> string)
         (pos_df : list pos_row) (fuji_df : list fuji_row) (choice : nat),
    (choice < length (large_mismatches to_numeric pos_df fuji_df))%nat ->
    exists r,
      nth_error (large_mismatches to_numeric pos_df fuji_df) choice = Some r
      /\ In r (large_mismatches to_numeric pos_df fuji_df)
      /\ nth_error (labels str_num (large_mismatches to_numeric pos_df fuji_df))
                   choice
         = Some (label str_num r)
      /\ let rows :=
           map (as_proof_row to_numeric)
               (filter (fun f => match fuji_DR_Num f with
                                 | Some d => d =? m_DR_Num r
                                 | None => false
                                 end) fuji_df) in
         rows <> []
         /\ m_Printed_Pages r = Some (sum_Z (map pr_Printed_Pages rows))
         /\ proof to_numeric fuji_df (m_DR_Num r) = rows
         /\ proof_section to_numeric str_num pos_df fuji_df choice
            = if m_DR_Num r =? 0
              then no_table (m_DR_Num r)
              else table (m_DR_Num r) rows.
Proof.
  intros tn sn pos_df fuji_df choice Hlt.
  destruct (nth_error (large_mismatches tn pos_df fuji_df) choice)
    as [r|] eqn:En; [|apply nth_error_None in En; lia].
  exists r. split; [reflexivity|].
  pose proof (nth_error_In _ _ En) as Hr. split; [exact Hr|].
  split; [unfold labels; now apply map_nth_error|].
  pose proof (large_in_matched tn pos_df fuji_df r Hr) as Hm.
  destruct (matched_row_sums tn pos_df fuji_df r Hm) as (_ & Hp).
  cbv zeta. split; [|split; [|split]].
  - intros E. apply map_eq_nil in E.
    assert (Hk : In (m_DR_Num r) (map m_DR_Num (matched tn pos_df fuji_df)))
      by now apply in_map.
    apply matched_keys in Hk as [_ Hk]. apply fuji_grouped_keys in Hk.
    apply (proj2 (rows_of_nonempty fuji_DR_Num (m_DR_Num r) fuji_df)) in Hk.
    now apply Hk.
  - now rewrite as_proof_row_pages.
  - apply proof_as_rows.
  - rewrite <- proof_as_rows. now apply proof_section_at_row.
Qed.

(** C10 at a job named "DR0" and at a job named "Job DR100": each is
    billed 5 pages and printed 20; the proof section shows no table for
    the first and the one printer row for the second. *)
Lemma proof_table_guarded_witness :
  let pos_df k := [{| Invoice_No := k;
                      Item_Name := Some "DIGITAL PRINT 1 SIDE";
                      Sales_Qty := "5"; Customer_Name := Some "Acme" |}] in
  let fuji_df job := [{| Job_Name := Some job; Printed_Pages := Num 20;
                         Owner := Some "Al";
                         Recorded_Date_Time := "2024-01-01 10:00" |}] in
  (0 < length (large_mismatches to_numeric_int (pos_df "DR0") (fuji_df "DR0")))%nat
  /\ (0 < length (large_mismatches to_numeric_int (pos_df "DR100")
                                   (fuji_df "Job DR100")))%nat
  /\ proof_section to_numeric_int str_int (pos_df "DR0") (fuji_df "DR0") 0
     = no_table 0
  /\ proof_section to_numeric_int str_int (pos_df "DR100")
       (fuji_df "Job DR100") 0
     = table 100 [{| pr_Recorded_Date_Time := "2024-01-01 10:00";
                     pr_Job_Name := Some "Job DR100";
                     pr_Printed_Pages := 20; pr_Owner := Some "Al" |}].
Proof.
  intros pos_df fuji_df.
  assert (H0 : (0 < length (large_mismatches to_numeric_int (pos_df "DR0")
                                             (fuji_df "DR0")))%nat)
    by (vm_compute; lia).
  assert (H1 : (0 < length (large_mismatches to_numeric_int (pos_df "DR100")
                                             (fuji_df "Job DR100")))%nat)
    by (vm_compute; lia).
  split; [exact H0|]. split; [exact H1|]. split.
  - destruct (proof_table_guarded_by_truthiness to_numeric_int str_int
                (pos_df "DR0") (fuji_df "DR0") 0%nat H0)
      as (r & En & _ & _ & _ & _ & _ & Hp).
    vm_compute in En. injection En as <-. exact Hp.
  - destruct (proof_table_guarded_by_truthiness to_numeric_int str_int
                (pos_df "DR100") (fuji_df "Job DR100") 0%nat H1)
      as (r & En & _ & _ & _ & _ & _ & Hp).
    vm_compute in En. injection En as <-. exact Hp.
Defined.

